(** * kubeglass: the write-capture pipeline, from the kernel probe to the consumers

    A shallow embedding of
    - [bpf/write_tracer.c]        (the capture program [trace_write]),
    - [cmd/kubeglass/main.go]     ([formatData], [isPrintable], [fdString]),
    - [cmd/kubeglass/tui.go]      (the interactive consumer: [pollNextEvent], [Update]),
    - the perf-buffer command line consumer (the non-interactive [main] loop
      with repeat suppression, and its descriptor flags),
    - the tail of an open file printed by [showExistingLogs],
    followed by the properties proved about them.

    Conventions.  A byte is an integer in [0, 256); a Go [string] or [[]byte]
    is a list of bytes.  Unsigned machine integers are integers with their
    wrap-around written out ([u32]). *)

From Stdlib Require Import ZArith List Lia Ascii String Bool.
From Stdlib Require Import Floats.PrimFloat Numbers.Cyclic.Int63.Uint63.
From stdpp Require Import base option list gmap pretty.

Local Open Scope Z_scope.

(** ** Bytes, machine integers and text *)

Module Bytes.

Abbreviation byte := Z (only parsing).
Abbreviation bytes := (list Z) (only parsing).

(** The value an unsigned 32-bit variable keeps of an integer. *)
Definition u32 (x : Z) : Z := x mod 2 ^ 32.

(** The bytes of a literal. *)
Fixpoint of_string (s : string) : bytes :=
  match s with
  | EmptyString => []
  | String c rest => Z.of_N (N_of_ascii c) :: of_string rest
  end.

(** [len] of a slice, as a Go [int]. *)
Definition len {A} (l : list A) : Z := Z.of_nat (length l).

(** [%d] of [fmt]: the decimal digits of an integer. *)
Definition fmt_d (n : Z) : bytes := of_string (pretty n).

(** Little-endian layout of a 32-bit unsigned integer. *)
Definition le32 (x : Z) : bytes :=
  [ Z.land x 255;
    Z.land (Z.shiftr x 8) 255;
    Z.land (Z.shiftr x 16) 255;
    Z.land (Z.shiftr x 24) 255 ].

(** [binary.LittleEndian.Uint32] *)
Definition get_le32 (b : bytes) : Z :=
  match b with
  | b0 :: b1 :: b2 :: b3 :: _ =>
      Z.lor b0 (Z.lor (Z.shiftl b1 8) (Z.lor (Z.shiftl b2 16) (Z.shiftl b3 24)))
  | _ => 0
  end.

End Bytes.
Import Bytes.

(** ** The capture program ([bpf/write_tracer.c])

    Both versions of the probe (ring buffer and perf event array) share the
    body of [trace_write]; they differ in the helper that publishes the
    record. *)

Module Kernel.

(** [struct write_event_t] *)
Record write_event_t := {
  pid : Z;            (* __u32 *)
  fd : Z;             (* __u32 *)
  data : bytes;       (* char data[240] *)
  data_len : Z        (* __u32 *)
}.

(** [sizeof(event.data)] *)
Definition DATA_SIZE : Z := 240.

(** The tracepoint context of [sys_enter_write]: the value of
    [bpf_get_current_pid_tgid ()] and the three 64-bit syscall arguments the
    probe reads at offsets 16, 24 and 32. *)
Record trace_ctx := {
  pid_tgid : Z;
  arg_fd : Z;
  arg_buf : Z;
  arg_count : Z
}.

(** The address space of the traced process: [None] for an unmapped byte. *)
Definition user_memory := Z → option byte.

Fixpoint copy_from_user (mem : user_memory) (addr : Z) (n : nat) : option bytes :=
  match n with
  | O => Some []
  | S k =>
      match mem addr, copy_from_user mem (addr + 1) k with
      | Some b, Some rest => Some (b :: rest)
      | _, _ => None
      end
  end.

(** [bpf_probe_read_user (dst, size, ptr)]: on a fault the helper zeroes the
    [size] bytes of [dst]; its return value is ignored by the probe. *)
Definition bpf_probe_read_user (dst : bytes) (size : Z) (mem : user_memory) (ptr : Z) : bytes :=
  match copy_from_user mem ptr (Z.to_nat size) with
  | Some bs => bs ++ drop (Z.to_nat size) dst
  | None => replicate (Z.to_nat size) 0 ++ drop (Z.to_nat size) dst
  end.

(** [trace_write]: [None] when the probe returns before publishing (the
    caller is not watched), otherwise the record handed to
    [bpf_ringbuf_output] / [bpf_perf_event_output]. *)
Definition trace_write (target_pid : gmap Z Z) (mem : user_memory) (ctx : trace_ctx)
  : option write_event_t :=
  let pid := u32 (Z.shiftr (pid_tgid ctx) 32) in
  match target_pid !! pid with
  | None => None
  | Some _ =>
      (* struct write_event_t event = {0}; *)
      let zeroed := replicate (Z.to_nat DATA_SIZE) 0 in
      let event_fd := u32 (arg_fd ctx) in
      let buf_ptr := arg_buf ctx in
      let count := arg_count ctx in
      let count := if count >? DATA_SIZE then DATA_SIZE else count in
      let event_data_len := u32 count in
      let event_data :=
        if count >? 0 then bpf_probe_read_user zeroed count mem buf_ptr else zeroed in
      Some {| pid := pid; fd := event_fd; data := event_data; data_len := event_data_len |}
  end.

(** The payload a record carries: the first [data_len] bytes of [data]. *)
Definition payload (ev : write_event_t) : bytes :=
  take (Z.to_nat (data_len ev)) (data ev).

End Kernel.

(** ** The wire format and the decoder *)

Module Wire.
Import Kernel.

(** Size of the fixed layout: pid (4), fd (4), data (240), data_len (4). *)
Definition RECORD_SIZE : Z := 252.

(** The memory image of a [struct write_event_t] on the little-endian BPF
    target ([-target bpfel]): what the probe hands to the transport. *)
Definition encode (ev : write_event_t) : bytes :=
  le32 (pid ev) ++ le32 (fd ev) ++ data ev ++ le32 (data_len ev).

(** Go's error values that the consumers distinguish.  The first three are
    the sentinel values themselves, as [==] identifies them; every other
    error value, one that wraps a sentinel included, is an [ErrOther] with
    its message. *)
Inductive error :=
| ErrClosed                (* ringbuf.ErrClosed, perf.ErrClosed *)
| EOF                      (* io.EOF *)
| ErrUnexpectedEOF         (* io.ErrUnexpectedEOF *)
| ErrOther (msg : string).

(** [bpfWriteEvent] of main.go; the command line consumer calls the same
    struct [writeEvent]. *)
Record bpfWriteEvent := {
  PID : Z;
  FD : Z;
  Data : bytes;     (* [240]byte *)
  DataLen : Z
}.

(** [Event] *)
Record Event := {
  ev_PID : Z;
  ev_FD : Z;
  Payload : bytes
}.

(** [binary.Read (reader over raw, binary.LittleEndian, &ev)]: the reader
    must supply the 252 bytes of the struct; an empty reader gives [io.EOF],
    a short one [io.ErrUnexpectedEOF]; bytes after the struct are left
    unread. *)
Definition binary_Read (raw : bytes) : error + bpfWriteEvent :=
  if len raw =? 0 then inl EOF
  else if len raw <? RECORD_SIZE then inl ErrUnexpectedEOF
  else inr {| PID := get_le32 raw;
              FD := get_le32 (drop 4 raw);
              Data := take 240 (drop 8 raw);
              DataLen := get_le32 (drop 248 raw) |}.

(** The slice expression [a[:n]] for an unsigned [n]: [None] is the
    run-time panic "slice bounds out of range". *)
Definition slice_to (a : bytes) (n : Z) : option bytes :=
  if n <=? len a then Some (take (Z.to_nat n) a) else None.

(** What decoding one raw sample comes to. *)
Inductive decoded :=
| Decoded (e : Event)
| DecodeError (err : error)
| DecodePanic.

(** The decoding steps of [pollNextEvent] (tui.go, lines 85-94). *)
Definition decode (raw : bytes) : decoded :=
  match binary_Read raw with
  | inl err => DecodeError err
  | inr bpfEvent =>
      match slice_to (Data bpfEvent) (DataLen bpfEvent) with
      | None => DecodePanic
      | Some p => Decoded {| ev_PID := PID bpfEvent; ev_FD := FD bpfEvent; Payload := p |}
      end
  end.

End Wire.

(** ** Classification and formatting ([isPrintable], [formatData], [fdString]) *)

Module Format.

(** Go's [unicode.IsPrint] on a rune below 256 (the standard library's
    Latin-1 table): the ASCII space and graphic characters 0x20-0x7E, and
    0xA1-0xFF without the soft hyphen 0xAD. *)
Definition unicode_IsPrint (r : Z) : bool :=
  ((32 <=? r) && (r <=? 126)) || ((161 <=? r) && (r <=? 255) && negb (r =? 173)).

(** [b == '\n' || b == '\r' || b == '\t' || unicode.IsPrint(rune(b))] *)
Definition counts_as_printable (b : byte) : bool :=
  (b =? 10) || (b =? 13) || (b =? 9) || unicode_IsPrint b.

(** The counting loop of [isPrintable]. *)
Definition printableCount (data : bytes) : Z :=
  fold_left (λ count b, if counts_as_printable b then count + 1 else count) data 0.

(** The conversion [float64(n)] of a non-negative [int]. *)
Definition float64 (n : Z) : float := PrimFloat.of_uint63 (Uint63.of_Z n).

(** The constant [0.9] as a [float64]: the nearest binary64 value. *)
Definition f0_9 : float := 0x1.ccccccccccccdp-1%float.

(** [isPrintable] *)
Definition isPrintable (data : bytes) : bool :=
  if len data =? 0 then true
  else PrimFloat.ltb f0_9 (PrimFloat.div (float64 (printableCount data)) (float64 (len data))).

(** [bytes.IndexByte] *)
Fixpoint IndexByte_from (data : bytes) (c : byte) (i : Z) : Z :=
  match data with
  | [] => -1
  | b :: rest => if b =? c then i else IndexByte_from rest c (i + 1)
  end.
Definition bytes_IndexByte (data : bytes) (c : byte) : Z := IndexByte_from data c 0.

(** [bytes.TrimRight (data, cutset)] for a cutset of single-byte characters. *)
Fixpoint bytes_TrimRight (data : bytes) (cutset : bytes) : bytes :=
  match data with
  | [] => []
  | b :: rest =>
      match bytes_TrimRight rest cutset with
      | [] => if existsb (Z.eqb b) cutset then [] else [b]
      | kept => b :: kept
      end
  end.

(** [strings.ReplaceAll (s, old, new)] for a one-byte [old]. *)
Fixpoint strings_ReplaceAll (s : bytes) (old : byte) (new : bytes) : bytes :=
  match s with
  | [] => []
  | b :: rest =>
      (if b =? old then new else [b]) ++ strings_ReplaceAll rest old new
  end.

(** *** [encoding/hex] of the Go standard library *)

Definition hextable : bytes := of_string "0123456789abcdef".

(** [hex.Encode] of one byte. *)
Definition hex_Encode1 (b : byte) : bytes :=
  [ nth (Z.to_nat (Z.shiftr b 4)) hextable 0; nth (Z.to_nat (Z.land b 15)) hextable 0 ].

Definition toChar (b : byte) : byte :=
  if (b <? 32) || (b >? 126) then 46 else b.

(** The state of a [hex.Dumper]: what was written so far, the right-hand
    column of the current line, the bytes used on it and the offset. *)
Record dumper := {
  d_out : bytes;
  d_rightChars : bytes;
  d_used : Z;
  d_n : Z
}.

(** One iteration of the loop of [dumper.Write]. *)
Definition dumper_Write1 (h : dumper) (b : byte) : dumper :=
  let n := d_n h in
  let offset :=
    if d_used h =? 0
    then hex_Encode1 (Z.land (Z.shiftr n 24) 255) ++ hex_Encode1 (Z.land (Z.shiftr n 16) 255)
         ++ hex_Encode1 (Z.land (Z.shiftr n 8) 255) ++ hex_Encode1 (Z.land n 255) ++ [32; 32]
    else [] in
  let cell :=
    hex_Encode1 b ++
    (if d_used h =? 7 then [32; 32]
     else if d_used h =? 15 then [32; 32; 124]
     else [32]) in
  let right := d_rightChars h ++ [toChar b] in
  let used := d_used h + 1 in
  if used =? 16
  then {| d_out := d_out h ++ offset ++ cell ++ right ++ [124; 10];
          d_rightChars := []; d_used := 0; d_n := n + 1 |}
  else {| d_out := d_out h ++ offset ++ cell;
          d_rightChars := right; d_used := used; d_n := n + 1 |}.

(** The padding loop of [dumper.Close], from column [used]. *)
Fixpoint dumper_pad (fuel : nat) (used : Z) : bytes :=
  match fuel with
  | O => []
  | S k =>
      if used <? 16
      then (if used =? 7 then [32; 32; 32; 32]
            else if used =? 15 then [32; 32; 32; 32; 124]
            else [32; 32; 32]) ++ dumper_pad k (used + 1)
      else []
  end.

Definition dumper_Close (h : dumper) : bytes :=
  if d_used h =? 0 then d_out h
  else d_out h ++ dumper_pad 16 (d_used h) ++ d_rightChars h ++ [124; 10].

(** [hex.Dump] *)
Definition hex_Dump (data : bytes) : bytes :=
  if len data =? 0 then []
  else dumper_Close
         (fold_left dumper_Write1 data {| d_out := []; d_rightChars := []; d_used := 0; d_n := 0 |}).

(** *** [formatData] *)

(** The scan that sets the local flag [isPrintable] of [formatData]: null
    bytes are skipped, any other byte that is neither newline, carriage
    return, tab nor printable clears the flag and ends the loop. *)
Fixpoint scan_printable (data : bytes) : bool :=
  match data with
  | [] => true
  | b :: rest =>
      if b =? 0 then scan_printable rest
      else if negb (b =? 10) && negb (b =? 13) && negb (b =? 9) && negb (unicode_IsPrint b)
           then false
           else scan_printable rest
  end.

Definition empty_marker : bytes := of_string "<empty>".

(** The text branch (lines 111-120 of main.go). *)
Definition format_text (data : bytes) : bytes :=
  let nullByteIndex := bytes_IndexByte data 0 in
  let containsNullByte := nullByteIndex >=? 0 in
  let data := if containsNullByte then take (Z.to_nat nullByteIndex) data else data in
  let cleanData := bytes_TrimRight data [0] in
  let formattedData := strings_ReplaceAll cleanData 10 (of_string "\n") in
  let formattedData := strings_ReplaceAll formattedData 13 (of_string "\r") in
  let formattedData := strings_ReplaceAll formattedData 9 (of_string "\t") in
  formattedData.

(** The hex branch (lines 123-127 of main.go). *)
Definition format_hex (data : bytes) : bytes :=
  let maxLen := 32 in
  if len data >? maxLen
  then hex_Dump (take (Z.to_nat maxLen) data)
       ++ of_string "... (" ++ fmt_d (len data) ++ of_string " bytes total)"
  else hex_Dump data.

Definition formatData (data : bytes) : bytes :=
  if len data =? 0 then empty_marker
  else if scan_printable data then format_text data
  else format_hex data.

(** [fdString] *)
Definition fdString (fd : Z) : bytes :=
  if fd =? 0 then of_string "stdin"
  else if fd =? 1 then of_string "stdout"
  else if fd =? 2 then of_string "stderr"
  else of_string "fd " ++ fmt_d fd.

End Format.

(** ** The command line consumer (the perf-buffer [main] loop) *)

Module Cli.
Import Wire Format.

(** The flags the loop reads. *)
Record config := {
  showAll : bool;
  fdFilter : gmap Z bool;
  skipBinary : bool;
  suppressRepeats : bool
}.

(** [perf.Record] *)
Record perf_Record := {
  RawSample : bytes;
  LostSamples : Z
}.

(** What one turn of the [select] sees: the context is done, or [rd.Read ()]
    returned. *)
Inductive input :=
| CtxDone
| ReadOk (record : perf_Record)
| ReadErr (e : error).

(** The variables the goroutine closes over, and what it has written. *)
Record loop_state := {
  lastEvent : option bpfWriteEvent;
  lastDataStr : bytes;
  repeatCount : Z;
  stdout : list bytes;
  stderr : list bytes
}.

Definition initial : loop_state :=
  {| lastEvent := None; lastDataStr := []; repeatCount := 0; stdout := []; stderr := [] |}.

Definition error_Error (e : error) : bytes :=
  match e with
  | ErrClosed => of_string "file already closed"
  | EOF => of_string "EOF"
  | ErrUnexpectedEOF => of_string "unexpected EOF"
  | ErrOther msg => of_string msg
  end.

(** The lines the loop prints. *)
Definition line_event (pid fd : Z) (dataStr : bytes) : bytes :=
  of_string "[PID " ++ fmt_d pid ++ of_string ", " ++ fdString fd ++ of_string "] "
    ++ dataStr ++ [10].
Definition line_repeated (pid fd count : Z) : bytes :=
  of_string "[PID " ++ fmt_d pid ++ of_string ", " ++ fdString fd
    ++ of_string "] Last message repeated " ++ fmt_d count ++ of_string " times" ++ [10].
Definition line_lost (n : Z) : bytes :=
  of_string "Lost " ++ fmt_d n ++ of_string " samples" ++ [10].
Definition line_read_error (e : error) : bytes :=
  of_string "Error reading perf buffer: " ++ error_Error e ++ [10].
Definition line_parse_error (e : error) : bytes :=
  of_string "Failed to parse event: " ++ error_Error e ++ [10].

Definition print (st : loop_state) (line : bytes) : loop_state :=
  {| lastEvent := lastEvent st; lastDataStr := lastDataStr st;
     repeatCount := repeatCount st; stdout := stdout st ++ [line]; stderr := stderr st |}.
Definition eprint (st : loop_state) (line : bytes) : loop_state :=
  {| lastEvent := lastEvent st; lastDataStr := lastDataStr st;
     repeatCount := repeatCount st; stdout := stdout st; stderr := stderr st ++ [line] |}.

(** How one turn of the loop ends. *)
Inductive turn :=
| Continue (st : loop_state)
| Return (st : loop_state)
| Panic (st : loop_state).

(** [lastEvent != nil && lastEvent.FD == event.FD && lastDataStr == dataStr] *)
Definition is_repeat (st : loop_state) (event : bpfWriteEvent) (dataStr : bytes) : bool :=
  match lastEvent st with
  | None => false
  | Some last => (FD last =? FD event) && bool_decide (lastDataStr st = dataStr)
  end.

(** The body of the [for] loop (lines 146-213). *)
Definition iteration (cfg : config) (st : loop_state) (i : input) : turn :=
  match i with
  | CtxDone => Return st
  | ReadErr ErrClosed => Return st
  | ReadErr e => Continue (eprint st (line_read_error e))
  | ReadOk record =>
      if negb (LostSamples record =? 0)
      then Continue (print st (line_lost (LostSamples record)))
      else
        match binary_Read (RawSample record) with
        | inl e => Continue (eprint st (line_parse_error e))
        | inr event =>
            if negb (showAll cfg) && negb (default false (fdFilter cfg !! FD event))
            then Continue st
            else
              match slice_to (Data event) (DataLen event) with
              | None => Panic st
              | Some data =>
                  let dataStr := formatData data in
                  if skipBinary cfg && negb (isPrintable data) then Continue st
                  else if suppressRepeats cfg && is_repeat st event dataStr
                  then Continue
                         {| lastEvent := lastEvent st; lastDataStr := lastDataStr st;
                            repeatCount := repeatCount st + 1;
                            stdout := stdout st; stderr := stderr st |}
                  else
                    let flushed :=
                      if repeatCount st >? 0
                      then match lastEvent st with
                           | Some last =>
                               Some [line_repeated (PID last) (FD last) (repeatCount st)]
                           | None => None      (* nil dereference *)
                           end
                      else Some [] in
                    match flushed with
                    | None => Panic st
                    | Some summary =>
                        Continue
                          {| lastEvent := Some event; lastDataStr := dataStr;
                             repeatCount := 0;
                             stdout := stdout st ++ summary
                                       ++ [line_event (PID event) (FD event) dataStr];
                             stderr := stderr st |}
                    end
              end
        end
  end.

(** The loop over what the reader and the context deliver; when the inputs
    run out the goroutine is blocked in [rd.Read ()]. *)
Fixpoint run (cfg : config) (st : loop_state) (inputs : list input) : turn :=
  match inputs with
  | [] => Continue st
  | i :: rest =>
      match iteration cfg st i with
      | Continue st' => run cfg st' rest
      | stopped => stopped
      end
  end.

(** The perf record the transport delivers for a captured event. *)
Definition sample (ev : Kernel.write_event_t) : input :=
  ReadOk {| RawSample := encode ev; LostSamples := 0 |}.

End Cli.

(** ** The interactive consumer ([tui.go]) *)

Module Tui.
Import Wire Format.

(** [tea.Msg], as far as [Update] tells messages apart.  A key message is
    given by its name ([msg.String ()]). *)
Inductive Msg :=
| WindowSizeMsg (Width Height : Z)
| EventMsg (e : Event)
| ErrorMsg (e : error)
| KeyMsg (key : string)
| NilMsg.

(** [tea.Cmd], as far as the run time tells commands apart. *)
Inductive Cmd :=
| CmdNil
| CmdQuit                 (* tea.Quit *)
| CmdPollNextEvent        (* m.pollNextEvent *)
| CmdBatch.               (* tea.Batch of the widgets' commands *)

(** The libraries behind the model: [regexp], and the [bubbles] widgets
    ([viewport], [textinput]) with [lipgloss] measuring the header and
    footer. *)
Class Libraries := {
  Regexp : Type;
  regexp_Compile : bytes → option Regexp;
  regexp_Match : Regexp → bytes → bool;
  Viewport : Type;
  viewport_zero : Viewport;
  viewport_New : Z → Z → Viewport;
  viewport_set_YPosition : Viewport → Z → Viewport;
  viewport_set_size : Viewport → Z → Z → Viewport;
  viewport_SetContent : Viewport → bytes → Viewport;
  viewport_GotoBottom : Viewport → Viewport;
  viewport_Update : Viewport → Msg → Viewport;
  textinput_Update : bytes → string → bytes;
  (* lipgloss.Height of headerView and footerView, which depend on the help
     panel and the width *)
  view_heights : bool → Z → Z * Z
}.

Section Model.
Context `{L : Libraries}.

Record tuiModel := {
  help_Width : Z;
  help_ShowAll : bool;
  input_value : bytes;         (* m.input.Value () *)
  input_focus : bool;
  showAll : bool;
  fdFilter : gmap Z bool;
  skipBinary : bool;
  grepRegex : option Regexp;
  filtering : bool;
  err : option error;
  events : list bytes;
  viewport : Viewport;
  ready : bool
}.

(** [newTUIModel] *)
Definition newTUIModel : tuiModel :=
  {| help_Width := 0; help_ShowAll := false;
     input_value := []; input_focus := true;
     showAll := true; fdFilter := ∅; skipBinary := true;
     grepRegex := None; filtering := false; err := None;
     events := []; viewport := viewport_zero; ready := false |}.

(** Assignments to the fields [Update] writes. *)
Definition set_help (m : tuiModel) (w : Z) (all : bool) : tuiModel :=
  {| help_Width := w; help_ShowAll := all;
     input_value := input_value m; input_focus := input_focus m;
     showAll := showAll m; fdFilter := fdFilter m; skipBinary := skipBinary m;
     grepRegex := grepRegex m; filtering := filtering m; err := err m;
     events := events m; viewport := viewport m; ready := ready m |}.
Definition set_input (m : tuiModel) (v : bytes) (focus : bool) : tuiModel :=
  {| help_Width := help_Width m; help_ShowAll := help_ShowAll m;
     input_value := v; input_focus := focus;
     showAll := showAll m; fdFilter := fdFilter m; skipBinary := skipBinary m;
     grepRegex := grepRegex m; filtering := filtering m; err := err m;
     events := events m; viewport := viewport m; ready := ready m |}.
Definition set_flags (m : tuiModel) (all skip : bool) : tuiModel :=
  {| help_Width := help_Width m; help_ShowAll := help_ShowAll m;
     input_value := input_value m; input_focus := input_focus m;
     showAll := all; fdFilter := fdFilter m; skipBinary := skip;
     grepRegex := grepRegex m; filtering := filtering m; err := err m;
     events := events m; viewport := viewport m; ready := ready m |}.
Definition set_grepRegex (m : tuiModel) (re : option Regexp) : tuiModel :=
  {| help_Width := help_Width m; help_ShowAll := help_ShowAll m;
     input_value := input_value m; input_focus := input_focus m;
     showAll := showAll m; fdFilter := fdFilter m; skipBinary := skipBinary m;
     grepRegex := re; filtering := filtering m; err := err m;
     events := events m; viewport := viewport m; ready := ready m |}.
Definition set_filtering (m : tuiModel) (f : bool) : tuiModel :=
  {| help_Width := help_Width m; help_ShowAll := help_ShowAll m;
     input_value := input_value m; input_focus := input_focus m;
     showAll := showAll m; fdFilter := fdFilter m; skipBinary := skipBinary m;
     grepRegex := grepRegex m; filtering := f; err := err m;
     events := events m; viewport := viewport m; ready := ready m |}.
Definition set_err (m : tuiModel) (e : option error) : tuiModel :=
  {| help_Width := help_Width m; help_ShowAll := help_ShowAll m;
     input_value := input_value m; input_focus := input_focus m;
     showAll := showAll m; fdFilter := fdFilter m; skipBinary := skipBinary m;
     grepRegex := grepRegex m; filtering := filtering m; err := e;
     events := events m; viewport := viewport m; ready := ready m |}.
Definition set_events (m : tuiModel) (es : list bytes) : tuiModel :=
  {| help_Width := help_Width m; help_ShowAll := help_ShowAll m;
     input_value := input_value m; input_focus := input_focus m;
     showAll := showAll m; fdFilter := fdFilter m; skipBinary := skipBinary m;
     grepRegex := grepRegex m; filtering := filtering m; err := err m;
     events := es; viewport := viewport m; ready := ready m |}.
Definition set_viewport (m : tuiModel) (vp : Viewport) (rdy : bool) : tuiModel :=
  {| help_Width := help_Width m; help_ShowAll := help_ShowAll m;
     input_value := input_value m; input_focus := input_focus m;
     showAll := showAll m; fdFilter := fdFilter m; skipBinary := skipBinary m;
     grepRegex := grepRegex m; filtering := filtering m; err := err m;
     events := events m; viewport := vp; ready := rdy |}.

(** What [m.rd.Read ()] returns. *)
Inductive read_result :=
| ReadSample (RawSample : bytes)
| ReadError (e : error).

(** The three filters of [pollNextEvent] (lines 96-104). *)
Definition fd_stage (m : tuiModel) (e : Event) : bool :=
  negb (negb (showAll m) && negb (default false (fdFilter m !! ev_FD e))).
Definition binary_stage (m : tuiModel) (e : Event) : bool :=
  negb (skipBinary m && negb (isPrintable (Payload e))).
Definition regex_stage (m : tuiModel) (payload : bytes) : bool :=
  match grepRegex m with
  | None => true
  | Some re => regexp_Match re payload
  end.

(** How a call of [pollNextEvent] ends: with a message and the rest of
    what the reader will deliver, with a run-time panic, or blocked in
    [Read] when nothing more arrives. *)
Inductive poll_result :=
| Polled (msg : Msg) (rest : list read_result)
| PollPanic
| PollBlocked.

(** [pollNextEvent] *)
Fixpoint pollNextEvent (m : tuiModel) (rd : list read_result) : poll_result :=
  match rd with
  | [] => PollBlocked
  | ReadError e :: rest =>
      match e with
      | ErrClosed | EOF => Polled NilMsg rest
      | _ => Polled (ErrorMsg e) rest
      end
  | ReadSample raw :: rest =>
      match decode raw with
      | DecodeError e => Polled (ErrorMsg e) rest
      | DecodePanic => PollPanic
      | Decoded event =>
          if negb (fd_stage m event) then pollNextEvent m rest
          else if negb (binary_stage m event) then pollNextEvent m rest
          else if negb (regex_stage m (Payload event)) then pollNextEvent m rest
          else Polled (EventMsg event) rest
      end
  end.

(** [key.Matches] against the bindings of [keys]. *)
Definition matches (key : string) (binding : list string) : bool :=
  existsb (String.eqb key) binding.
Definition keys_Quit : list string := ["q"; "ctrl+c"]%string.
Definition keys_Filter : list string := ["/"]%string.
Definition keys_Clear : list string := ["esc"]%string.
Definition keys_ToggleAll : list string := ["a"]%string.
Definition keys_ToggleBinary : list string := ["b"]%string.
Definition keys_ToggleHelp : list string := ["?"]%string.
Definition keys_Enter : list string := ["enter"]%string.

(** [strings.Join (m.events, "\n")] *)
Fixpoint strings_Join (lines : list bytes) : bytes :=
  match lines with
  | [] => []
  | [l] => l
  | l :: rest => l ++ [10] ++ strings_Join rest
  end.

(** The line [Update] appends for an event. *)
Definition event_line (e : Event) : bytes :=
  of_string "[PID " ++ fmt_d (ev_PID e) ++ of_string ", " ++ fdString (ev_FD e)
    ++ of_string "] " ++ formatData (Payload e).

(** The end of [Update]: the viewport sees the message and the collected
    commands are batched. *)
Definition finish (m : tuiModel) (msg : Msg) : tuiModel * Cmd :=
  (set_viewport m (viewport_Update (viewport m) msg) (ready m), CmdBatch).

(** [Update] *)
Definition Update (m : tuiModel) (msg : Msg) : tuiModel * Cmd :=
  match msg with
  | WindowSizeMsg Width Height =>
      let m := set_help m Width (help_ShowAll m) in
      let '(headerHeight, footerHeight) := view_heights (help_ShowAll m) Width in
      let verticalMarginHeight := headerHeight + footerHeight in
      let m :=
        if negb (ready m)
        then set_viewport m
               (viewport_set_YPosition
                  (viewport_New Width (Height - verticalMarginHeight)) headerHeight)
               true
        else set_viewport m
               (viewport_set_size (viewport m) Width (Height - verticalMarginHeight))
               (ready m) in
      finish m msg
  | EventMsg e =>
      let m := set_events m (events m ++ [event_line e]) in
      let m := set_viewport m
                 (viewport_GotoBottom
                    (viewport_SetContent (viewport m) (strings_Join (events m))))
                 (ready m) in
      (m, CmdPollNextEvent)
  | ErrorMsg e =>
      (set_err m (Some e), CmdQuit)
  | KeyMsg key =>
      if filtering m then
        if matches key keys_Quit then
          finish (set_input (set_filtering m false) (input_value m) false) msg
        else if matches key keys_Enter then
          let m := set_grepRegex m (regexp_Compile (input_value m)) in
          finish (set_input (set_filtering m false) (input_value m) false) msg
        else
          finish (set_input m (textinput_Update (input_value m) key) (input_focus m)) msg
      else
        if matches key keys_Quit then (m, CmdQuit)
        else if matches key keys_Filter then
          (set_input (set_filtering m true) (input_value m) true, CmdNil)
        else if matches key keys_Clear then
          finish (set_grepRegex (set_input m [] (input_focus m)) None) msg
        else if matches key keys_ToggleAll then
          finish (set_flags m (negb (showAll m)) (skipBinary m)) msg
        else if matches key keys_ToggleBinary then
          finish (set_flags m (showAll m) (negb (skipBinary m))) msg
        else if matches key keys_ToggleHelp then
          finish (set_help m (help_Width m) (negb (help_ShowAll m))) msg
        else finish m msg
  | NilMsg => finish m msg
  end.

(** *** The consumer as a state machine *)

Inductive State := Normal | Filtering | Terminated.

(** A running program: the model, whether the run time has received the
    quit command, and what the reader still has to deliver. *)
Record session := {
  model : tuiModel;
  quit : bool;
  reader : list read_result
}.

Definition state_of (s : session) : State :=
  if quit s then Terminated
  else if filtering (model s) then Filtering
  else Normal.

(** The run time delivers one message: a nil message is dropped, any
    other goes through [Update], and [tea.Quit] ends the loop. *)
Definition deliver (s : session) (msg : Msg) : session :=
  if quit s then s
  else
    match msg with
    | NilMsg => s
    | _ =>
        let '(m, cmd) := Update (model s) msg in
        {| model := m;
           quit := match cmd with CmdQuit => true | _ => false end;
           reader := reader s |}
    end.

(** The run time runs the pending [pollNextEvent] command and delivers
    its message; [None] when the command panics or never returns. *)
Definition poll (s : session) : option session :=
  match pollNextEvent (model s) (reader s) with
  | Polled msg rest =>
      Some (deliver {| model := model s; quit := quit s; reader := rest |} msg)
  | PollPanic | PollBlocked => None
  end.

End Model.

(** A stand-in for the libraries, to run the model on examples: a pattern
    is a literal substring, a pattern that contains an opening parenthesis
    does not compile, the viewport keeps its content only. *)
Fixpoint is_prefix (p s : bytes) : bool :=
  match p, s with
  | [], _ => true
  | _, [] => false
  | a :: p', b :: s' => (a =? b) && is_prefix p' s'
  end.
Fixpoint contains (s p : bytes) : bool :=
  match s with
  | [] => is_prefix p []
  | _ :: s' => is_prefix p s || contains s' p
  end.

Definition literal_libraries : Libraries :=
  {| Regexp := list Z;
     regexp_Compile := λ p, if existsb (Z.eqb 40) p then None else Some p;
     regexp_Match := λ re s, contains s re;
     Viewport := list Z;
     viewport_zero := [];
     viewport_New := λ _ _, [];
     viewport_set_YPosition := λ vp _, vp;
     viewport_set_size := λ vp _ _, vp;
     viewport_SetContent := λ _ content, content;
     viewport_GotoBottom := λ vp, vp;
     viewport_Update := λ vp _, vp;
     textinput_Update := λ v key, v ++ of_string key;
     view_heights := λ _ _, (2, 2) |}.

End Tui.

(** ** The tail of an open file ([showExistingLogs]) *)

Module Existing.
Import Format.

(** [bytes.Split (s, sep)] for a one-byte separator: the pieces between the
    separators, one more than there are separators. *)
Fixpoint bytes_Split (s : bytes) (sep : byte) : list bytes :=
  match s with
  | [] => [[]]
  | b :: rest =>
      if b =? sep then [] :: bytes_Split rest sep
      else
        match bytes_Split rest sep with
        | piece :: pieces => (b :: piece) :: pieces
        | [] => [[b]]
        end
  end.

Definition line_existing (data : bytes) : bytes :=
  of_string "[EXISTING] " ++ data ++ [10].

(** The value a Go [int] (64 bits, two's complement) keeps of an integer. *)
Definition int64 (x : Z) : Z := (x + 2 ^ 63) mod 2 ^ 64 - 2 ^ 63.

(** How the loop over the lines of one file ends: with the entries printed,
    or with the run-time panic of an index out of range. *)
Inductive tail_result :=
| Printed (out : list (list Z))
| IndexPanic.

(** What [showExistingLogs] does with the content of one regular file
    (lines 199-212 of main.go): it prints the last [tailLines] lines, each
    formatted, without those skipped as binary.  [start] is the [int]
    difference [len(lines) - tailLines], with its wrap-around; the loop runs
    from [start] while [i < len(lines)], so a negative [start] makes the
    first [lines[i]] panic before anything is printed. *)
Definition existing_lines (fileContent : bytes) (tailLines : Z) (skipBinary : bool)
  : tail_result :=
  let lines := bytes_Split fileContent 10 in
  let start := if len lines >? tailLines then int64 (len lines - tailLines) else 0 in
  if (start <? 0) && (start <? len lines) then IndexPanic
  else
    Printed
      (flat_map
         (λ line,
            let data := formatData line in
            if skipBinary && negb (isPrintable line) then [] else [line_existing data])
         (drop (Z.to_nat start) lines)).

End Existing.

(** ** The descriptor flags of the command line consumer *)

Module Flags.

(** The descriptor flags after [flag.Parse]: [--stdout], [--stderr], [--all]
    and [--fds].  For [--fds] the model keeps what the loop over the
    comma-separated pieces sees: [None] when the flag is empty, otherwise the
    value [fmt.Sscanf (fdStr, "%d", &fd)] leaves in [fd] for each piece (zero
    when the piece is not a number). *)
Record fd_flags := {
  showStdout : bool;
  showStderr : bool;
  showAll : bool;
  targetFDs : option (list Z)
}.

(** Lines 61-81 of the command line [main]: the value of [showAll] and the
    filter map the loop runs with. *)
Definition build_filter (f : fd_flags) : bool * gmap Z bool :=
  match targetFDs f with
  | Some scanned =>
      (false,
       fold_left (λ (fdFilter : gmap Z bool) fd,
                    if fd >? 0 then <[u32 fd := true]> fdFilter else fdFilter)
                 scanned ∅)
  | None =>
      let '(all, fdFilter) :=
        if showStdout f then (false, <[1 := true]> (∅ : gmap Z bool))
        else (showAll f, ∅) in
      if showStderr f then (false, <[2 := true]> fdFilter) else (all, fdFilter)
  end.

(** The configuration of the loop for given flags. *)
Definition config_of (f : fd_flags) (skipBinary suppressRepeats : bool) : Cli.config :=
  {| Cli.showAll := fst (build_filter f);
     Cli.fdFilter := snd (build_filter f);
     Cli.skipBinary := skipBinary;
     Cli.suppressRepeats := suppressRepeats |}.

End Flags.

(** * Properties *)

Module KernelFacts.
Import Kernel.

Lemma copy_from_user_length mem n : ∀ addr bs,
  copy_from_user mem addr n = Some bs → length bs = n.
Proof.
  induction n as [|n IH]; intros addr bs; simpl.
  - intros [= <-]. reflexivity.
  - destruct (mem addr); [|discriminate].
    destruct (copy_from_user mem (addr + 1) n) eqn:E; [|discriminate].
    intros [= <-]. simpl. f_equal. eauto.
Qed.

Lemma bpf_probe_read_user_length dst size mem ptr :
  (Z.to_nat size ≤ length dst)%nat →
  length (bpf_probe_read_user dst size mem ptr) = length dst.
Proof.
  intros Hle. unfold bpf_probe_read_user.
  destruct (copy_from_user mem ptr (Z.to_nat size)) eqn:E.
  - apply copy_from_user_length in E.
    rewrite length_app, length_drop. lia.
  - rewrite length_app, length_replicate, length_drop. lia.
Qed.

(** C1. For a watched pid and a write of [count] bytes, the probe publishes a
    record with [data_len = min (count, 240)]; hence [data_len <= 240], the
    [data] array keeps its 240 bytes, and a zero count gives [data_len = 0]
    and an empty payload. *)
Theorem trace_write_data_len (target_pid : gmap Z Z) mem ctx w :
  0 ≤ arg_count ctx < 2 ^ 64 →
  target_pid !! u32 (Z.shiftr (pid_tgid ctx) 32) = Some w →
  ∃ ev, trace_write target_pid mem ctx = Some ev
        ∧ data_len ev = Z.min (arg_count ctx) 240
        ∧ 0 ≤ data_len ev ≤ 240
        ∧ length (data ev) = 240%nat
        ∧ (arg_count ctx = 0 → data_len ev = 0 ∧ payload ev = []).
Proof.
  intros Hc Hw. unfold trace_write. rewrite Hw. unfold DATA_SIZE.
  set (count := if arg_count ctx >? 240 then 240 else arg_count ctx).
  set (zeroed := replicate (Z.to_nat 240) 0).
  assert (Hcount : count = Z.min (arg_count ctx) 240).
  { subst count. destruct (Z.gtb_spec (arg_count ctx) 240); lia. }
  assert (Hlen : u32 count = Z.min (arg_count ctx) 240).
  { unfold u32. rewrite <- Hcount. apply Z.mod_small. lia. }
  assert (Hz : length zeroed = 240%nat) by apply length_replicate.
  eexists. split; [reflexivity|]. unfold payload. cbn [data data_len].
  rewrite Hlen. split; [reflexivity|]. split; [lia|]. split.
  - destruct (count >? 0); [|exact Hz].
    rewrite bpf_probe_read_user_length; [exact Hz|]. rewrite Hz. lia.
  - intros H0. rewrite H0. split; reflexivity.
Qed.

(** A watched process writing 1000 bytes. *)
Definition watched : gmap Z Z := {[ 4242 := 4242 ]}.
Definition flat_memory : user_memory := λ addr, Some (addr mod 256).
Definition big_write : trace_ctx :=
  {| pid_tgid := 4242 * 2 ^ 32 + 4250; arg_fd := 1; arg_buf := 4096; arg_count := 1000 |}.

Lemma trace_write_data_len_witness :
  ∃ ev, trace_write watched flat_memory big_write = Some ev
        ∧ data_len ev = Z.min (arg_count big_write) 240
        ∧ 0 ≤ data_len ev ≤ 240
        ∧ length (data ev) = 240%nat
        ∧ (arg_count big_write = 0 → data_len ev = 0 ∧ payload ev = []).
Proof.
  apply (trace_write_data_len watched flat_memory big_write 4242).
  - vm_compute. split; [discriminate | reflexivity].
  - vm_compute. reflexivity.
Defined.

(** A write of zero bytes, and a write from an unmapped buffer: both are
    published, the first with an empty payload, the second with the clamped
    length and zeroed data. *)
Example trace_write_zero_count :
  (λ ev, (data_len ev, payload ev))
    <$> trace_write watched flat_memory
          {| pid_tgid := 4242 * 2 ^ 32 + 4250; arg_fd := 2; arg_buf := 0; arg_count := 0 |}
  = Some (0, []).
Proof. vm_compute. reflexivity. Qed.

Example trace_write_unmapped_buffer :
  (λ ev, (data_len ev, payload ev))
    <$> trace_write watched (λ _, None)
          {| pid_tgid := 4242 * 2 ^ 32 + 4250; arg_fd := 2; arg_buf := 0; arg_count := 3 |}
  = Some (3, [0; 0; 0]).
Proof. vm_compute. reflexivity. Qed.

(** A process that is not watched publishes nothing. *)
Example trace_write_not_watched :
  trace_write watched flat_memory
    {| pid_tgid := 7 * 2 ^ 32 + 7; arg_fd := 1; arg_buf := 4096; arg_count := 10 |}
  = None.
Proof. vm_compute. reflexivity. Qed.

End KernelFacts.

Module WireFacts.
Import Kernel Wire.

Lemma testbit_255 k : 0 ≤ k → Z.testbit 255 k = (k <? 8).
Proof.
  intros Hk. change 255 with (Z.ones 8). rewrite Z.testbit_ones by lia.
  destruct (Z.leb_spec 0 k); [reflexivity | lia].
Qed.

(** Reading back a 32-bit field written in little-endian order. *)
Lemma get_le32_le32 x rest : 0 ≤ x < 2 ^ 32 → get_le32 (le32 x ++ rest) = x.
Proof.
  intros Hx. unfold le32, get_le32. cbn [app].
  apply Z.bits_inj'. intros n Hn.
  rewrite !Z.lor_spec.
  rewrite !Z.shiftl_spec by lia.
  destruct (Z.ltb_spec n 8) as [H8|H8];
    [| destruct (Z.ltb_spec n 16) as [H16|H16];
       [| destruct (Z.ltb_spec n 24) as [H24|H24];
          [| destruct (Z.ltb_spec n 32) as [H32|H32]]]].
  - rewrite Z.land_spec, testbit_255, (proj2 (Z.ltb_lt n 8)) by lia.
    rewrite (Z.testbit_neg_r _ (n - 8)), (Z.testbit_neg_r _ (n - 16)),
      (Z.testbit_neg_r _ (n - 24)) by lia.
    rewrite andb_true_r, !orb_false_r. reflexivity.
  - rewrite !Z.land_spec, (testbit_255 n), (testbit_255 (n - 8)) by lia.
    rewrite (proj2 (Z.ltb_ge n 8)), (proj2 (Z.ltb_lt (n - 8) 8)) by lia.
    rewrite (Z.testbit_neg_r _ (n - 16)), (Z.testbit_neg_r _ (n - 24)) by lia.
    rewrite !Z.shiftr_spec by lia.
    rewrite andb_false_r, andb_true_r, !orb_false_r, orb_false_l.
    f_equal. lia.
  - rewrite !Z.land_spec, (testbit_255 n), (testbit_255 (n - 8)),
      (testbit_255 (n - 16)) by lia.
    rewrite (proj2 (Z.ltb_ge n 8)), (proj2 (Z.ltb_ge (n - 8) 8)),
      (proj2 (Z.ltb_lt (n - 16) 8)) by lia.
    rewrite (Z.testbit_neg_r _ (n - 24)) by lia.
    rewrite !Z.shiftr_spec by lia.
    rewrite !andb_false_r, andb_true_r, orb_false_r, !orb_false_l.
    f_equal. lia.
  - rewrite !Z.land_spec, (testbit_255 n), (testbit_255 (n - 8)),
      (testbit_255 (n - 16)), (testbit_255 (n - 24)) by lia.
    rewrite (proj2 (Z.ltb_ge n 8)), (proj2 (Z.ltb_ge (n - 8) 8)),
      (proj2 (Z.ltb_ge (n - 16) 8)), (proj2 (Z.ltb_lt (n - 24) 8)) by lia.
    rewrite !Z.shiftr_spec by lia.
    rewrite !andb_false_r, andb_true_r, !orb_false_l.
    f_equal. lia.
  - rewrite !Z.land_spec, (testbit_255 n), (testbit_255 (n - 8)),
      (testbit_255 (n - 16)), (testbit_255 (n - 24)) by lia.
    rewrite (proj2 (Z.ltb_ge n 8)), (proj2 (Z.ltb_ge (n - 8) 8)),
      (proj2 (Z.ltb_ge (n - 16) 8)), (proj2 (Z.ltb_ge (n - 24) 8)) by lia.
    rewrite !andb_false_r. cbn [orb]. symmetry.
    destruct (Z.eq_dec x 0) as [->|Hx0]; [apply Z.testbit_0_l|].
    apply Z.bits_above_log2; [lia|].
    assert (Z.log2 x < 32) by (apply Z.log2_lt_pow2; lia). lia.
Qed.

Lemma le32_length x : length (le32 x) = 4%nat.
Proof. reflexivity. Qed.

Lemma encode_length ev :
  length (data ev) = 240%nat → length (encode ev) = 252%nat.
Proof.
  intros H. unfold encode. rewrite !length_app, !le32_length, H. reflexivity.
Qed.

(** [binary.Read] recovers the four fields of an encoded record. *)
Lemma binary_Read_encode ev :
  0 ≤ pid ev < 2 ^ 32 → 0 ≤ fd ev < 2 ^ 32 → 0 ≤ data_len ev < 2 ^ 32 →
  length (data ev) = 240%nat →
  binary_Read (encode ev)
  = inr {| PID := pid ev; FD := fd ev; Data := data ev; DataLen := data_len ev |}.
Proof.
  intros Hp Hf Hl Hd. unfold binary_Read, len, RECORD_SIZE.
  rewrite (encode_length ev Hd). cbn [Z.of_nat Z.eqb Z.ltb Z.compare Pos.of_succ_nat].
  change (Z.of_nat 252 =? 0) with false. change (Z.of_nat 252 <? 252) with false.
  cbn iota. unfold encode. f_equal. f_equal.
  - apply get_le32_le32, Hp.
  - rewrite drop_app_length' by reflexivity. apply get_le32_le32, Hf.
  - change 8%nat with (4 + 4)%nat. rewrite <- drop_drop.
    rewrite drop_app_length' by reflexivity.
    rewrite drop_app_length' by reflexivity.
    rewrite take_app_length' by (symmetry; exact Hd). reflexivity.
  - change 248%nat with (4 + (4 + 240))%nat. rewrite <- !drop_drop.
    rewrite drop_app_length' by reflexivity.
    rewrite drop_app_length' by reflexivity.
    rewrite drop_app_length' by (symmetry; exact Hd).
    rewrite <- (app_nil_r (le32 (data_len ev))). apply get_le32_le32, Hl.
Qed.

Lemma decode_encode ev :
  0 ≤ pid ev < 2 ^ 32 → 0 ≤ fd ev < 2 ^ 32 → 0 ≤ data_len ev < 2 ^ 32 →
  length (data ev) = 240%nat →
  decode (encode ev)
  = match slice_to (data ev) (data_len ev) with
    | None => DecodePanic
    | Some p => Decoded {| ev_PID := pid ev; ev_FD := fd ev; Payload := p |}
    end.
Proof.
  intros Hp Hf Hl Hd. unfold decode.
  rewrite binary_Read_encode by assumption. reflexivity.
Qed.

Lemma slice_to_in_bounds (a : list Z) n :
  0 ≤ n ≤ len a → slice_to a n = Some (take (Z.to_nat n) a).
Proof.
  intros Hn. unfold slice_to.
  destruct (Z.leb_spec n (len a)); [reflexivity | lia].
Qed.

Lemma slice_to_out_of_bounds (a : list Z) n : len a < n → slice_to a n = None.
Proof.
  intros Hn. unfold slice_to.
  destruct (Z.leb_spec n (len a)); [lia | reflexivity].
Qed.

(** C2. Round trip: a record with [data_len = N <= 240] that is laid out by
    the probe and decoded by the consumer gives an event with the same pid
    and fd whose payload is the first [N] bytes of [data], of length
    exactly [N]. *)
Theorem decode_encode_roundtrip (pid fd : Z) (data : list Z) (N : Z) :
  0 ≤ pid < 2 ^ 32 → 0 ≤ fd < 2 ^ 32 → length data = 240%nat → 0 ≤ N ≤ 240 →
  decode (encode {| Kernel.pid := pid; Kernel.fd := fd;
                    Kernel.data := data; Kernel.data_len := N |})
  = Decoded {| ev_PID := pid; ev_FD := fd; Payload := take (Z.to_nat N) data |}
  ∧ len (take (Z.to_nat N) data) = N.
Proof.
  intros Hp Hf Hd HN. split.
  - rewrite decode_encode; cbn [Kernel.pid Kernel.fd Kernel.data Kernel.data_len];
      try assumption; try lia.
    rewrite slice_to_in_bounds; [reflexivity|]. unfold len. lia.
  - unfold len. rewrite length_take. lia.
Qed.

Definition sample_data : list Z := of_string "hello" ++ replicate 235 7.

Lemma decode_encode_roundtrip_witness :
  decode (encode {| Kernel.pid := 4242; Kernel.fd := 1;
                    Kernel.data := sample_data; Kernel.data_len := 5 |})
  = Decoded {| ev_PID := 4242; ev_FD := 1; Payload := take (Z.to_nat 5) sample_data |}
  ∧ len (take (Z.to_nat 5) sample_data) = 5.
Proof.
  apply (decode_encode_roundtrip 4242 1 sample_data 5); [lia | lia | reflexivity | lia].
Defined.

End WireFacts.

Module FormatFacts.
Import Format.

(** *** The counting loop *)

Lemma printableCount_acc data : ∀ acc,
  fold_left (λ count b, if counts_as_printable b then count + 1 else count) data acc
  = acc + len (List.filter counts_as_printable data).
Proof.
  unfold len. induction data as [|b data IH]; intros acc; cbn [fold_left List.filter].
  - cbn. lia.
  - rewrite IH. destruct (counts_as_printable b); cbn [length]; lia.
Qed.

(** The counter is the number of bytes that are printable, newline,
    carriage return or tab. *)
Lemma printableCount_filter data :
  printableCount data = len (List.filter counts_as_printable data).
Proof. unfold printableCount. rewrite printableCount_acc. lia. Qed.

Lemma printableCount_bounds data : 0 ≤ printableCount data ≤ len data.
Proof.
  rewrite printableCount_filter. unfold len.
  pose proof (List.filter_length_le counts_as_printable data). lia.
Qed.

(** *** The floating-point comparison

    On every count and length that a payload of at most 240 bytes can give,
    the binary64 quotient compared with the binary64 constant [0.9] decides
    exactly whether the ratio exceeds nine tenths.  The table is checked by
    evaluation. *)

Definition ratio_above (p n : Z) : bool :=
  PrimFloat.ltb f0_9 (PrimFloat.div (float64 p) (float64 n)).

Definition ratio_row (n : nat) : bool :=
  forallb (λ p : nat, Bool.eqb (ratio_above (Z.of_nat p) (Z.of_nat n))
                               (9 * Z.of_nat n <? 10 * Z.of_nat p))
          (List.seq 0 (S n)).

Lemma ratio_table_ok : forallb ratio_row (List.seq 1 240) = true.
Proof. vm_compute. reflexivity. Qed.

Lemma forallb_seq_at (f : nat → bool) (start count k : nat) :
  forallb f (List.seq start count) = true →
  (start ≤ k < start + count)%nat → f k = true.
Proof.
  intros Hall Hk. rewrite forallb_forall in Hall. apply Hall, in_seq. exact Hk.
Qed.

Lemma ratio_above_exact p n :
  1 ≤ n ≤ 240 → 0 ≤ p ≤ n → ratio_above p n = (9 * n <? 10 * p).
Proof.
  intros Hn Hp.
  assert (Hrow : ratio_row (Z.to_nat n) = true).
  { apply (forallb_seq_at ratio_row 1 240); [exact ratio_table_ok | lia]. }
  assert (Hcell : Bool.eqb (ratio_above (Z.of_nat (Z.to_nat p)) (Z.of_nat (Z.to_nat n)))
                           (9 * Z.of_nat (Z.to_nat n) <? 10 * Z.of_nat (Z.to_nat p)) = true).
  { exact (forallb_seq_at
             (λ q : nat, Bool.eqb (ratio_above (Z.of_nat q) (Z.of_nat (Z.to_nat n)))
                                  (9 * Z.of_nat (Z.to_nat n) <? 10 * Z.of_nat q))
             0 (S (Z.to_nat n)) (Z.to_nat p) Hrow ltac:(lia)). }
  rewrite !Z2Nat.id in Hcell by lia.
  apply Bool.eqb_prop. exact Hcell.
Qed.

(** The bound matters: binary64 rounding loses the exact comparison far
    beyond any payload, here at a length of about 2 * 10^15 where the ratio
    is above nine tenths and the quotient rounds to the constant. *)
Remark ratio_above_inexact_for_huge_lengths :
  ratio_above (9 * 200000000000000 + 1) (10 * 200000000000000 + 1) = false
  ∧ 9 * (10 * 200000000000000 + 1) < 10 * (9 * 200000000000000 + 1).
Proof. split; [vm_compute; reflexivity | lia]. Qed.

Lemma isPrintable_ratio data :
  data ≠ [] → len data ≤ 240 →
  isPrintable data = (9 * len data <? 10 * len (List.filter counts_as_printable data)).
Proof.
  intros Hne Hlen. unfold isPrintable.
  assert (0 < len data) by (unfold len; destruct data; [congruence | cbn; lia]).
  destruct (Z.eqb_spec (len data) 0); [lia|].
  fold (ratio_above (printableCount data) (len data)).
  pose proof (printableCount_bounds data).
  rewrite ratio_above_exact by lia.
  rewrite printableCount_filter. reflexivity.
Qed.

Definition bytes_01_09 : list Z := [1; 2; 3; 4; 5; 6; 7; 8; 9].
Definition hello_01 : list Z := of_string "Hello, World!" ++ [1].

(** C3. The classification of a non-empty payload (at most 240 bytes, as
    every payload is) is exact at the threshold: strictly more than nine
    tenths of the bytes printable or newline, carriage return or tab gives
    text, nine tenths or less gives binary.  The bytes 0x01..0x09 are binary
    and "Hello, World!\x01" is text. *)
Theorem isPrintable_threshold_exact (data : list Z) :
  data ≠ [] → len data ≤ 240 →
  (9 * len data < 10 * len (List.filter counts_as_printable data)
     → isPrintable data = true)
  ∧ (10 * len (List.filter counts_as_printable data) ≤ 9 * len data
     → isPrintable data = false)
  ∧ isPrintable bytes_01_09 = false
  ∧ isPrintable hello_01 = true.
Proof.
  intros Hne Hlen. rewrite (isPrintable_ratio data Hne Hlen).
  split; [|split; [|split]].
  - intros H. apply Z.ltb_lt. exact H.
  - intros H. apply Z.ltb_ge. exact H.
  - vm_compute. reflexivity.
  - vm_compute. reflexivity.
Qed.

(** Ten bytes, nine of them printable: exactly at the threshold. *)
Definition nine_of_ten : list Z := of_string "abcdefghi" ++ [1].

Lemma isPrintable_threshold_exact_witness :
  (9 * len nine_of_ten < 10 * len (List.filter counts_as_printable nine_of_ten)
     → isPrintable nine_of_ten = true)
  ∧ (10 * len (List.filter counts_as_printable nine_of_ten) ≤ 9 * len nine_of_ten
     → isPrintable nine_of_ten = false)
  ∧ isPrintable bytes_01_09 = false
  ∧ isPrintable hello_01 = true.
Proof.
  apply (isPrintable_threshold_exact nine_of_ten).
  - discriminate.
  - vm_compute. discriminate.
Defined.

(** *** The scan of [formatData] *)

Lemma scan_printable_Forall data :
  scan_printable data = true
  ↔ Forall (λ b, b = 0 ∨ counts_as_printable b = true) data.
Proof.
  induction data as [|b data IH]; cbn [scan_printable].
  - split; [constructor | reflexivity].
  - rewrite Forall_cons, <- IH. unfold counts_as_printable.
    destruct (Z.eqb_spec b 0) as [->|H0].
    + split; [intros H; split; [left; reflexivity | exact H] | intros [_ H]; exact H].
    + destruct (b =? 10), (b =? 13), (b =? 9), (unicode_IsPrint b); cbn;
        split; try (intros H; split; [right; reflexivity | exact H]);
        try (intros [_ H]; exact H); try discriminate;
        intros [[?|?] _]; congruence.
Qed.

Lemma filter_all (f : Z → bool) data :
  Forall (λ b, f b = true) data → List.filter f data = data.
Proof.
  induction 1 as [|b data Hb _ IH]; cbn [List.filter]; [reflexivity|].
  rewrite Hb, IH. reflexivity.
Qed.

(** Without null bytes the scan is stricter than the ratio. *)
Lemma scan_printable_isPrintable data :
  data ≠ [] → len data ≤ 240 → Forall (λ b, b ≠ 0) data →
  scan_printable data = true → isPrintable data = true.
Proof.
  intros Hne Hlen Hnz Hscan. rewrite (isPrintable_ratio data Hne Hlen).
  rewrite filter_all.
  - apply Z.ltb_lt. unfold len. destruct data; [congruence | cbn [length]; lia].
  - apply scan_printable_Forall in Hscan.
    rewrite Forall_forall in *. intros b Hb.
    destruct (Hscan b Hb) as [H0|H1]; [|exact H1].
    exfalso. exact (Hnz b Hb H0).
Qed.

Lemma formatData_nonempty data :
  data ≠ [] →
  formatData data = if scan_printable data then format_text data else format_hex data.
Proof.
  intros Hne. unfold formatData, len.
  destruct data; [congruence | reflexivity].
Qed.

(** C4 (as the code has it). [formatData] chooses between text and hex dump
    by its own scan, not by the 90% ratio: a non-empty payload is rendered
    as an escaped text line exactly when every byte is null, printable,
    newline, carriage return or tab, and as a hex dump otherwise; the dump
    covers the first 32 bytes only and is annotated with the original byte
    count when the payload exceeds 32 bytes.  For payloads without null
    bytes, a payload classified as binary is always hex-dumped. *)
Theorem formatData_branches (data : list Z) :
  data ≠ [] →
  (scan_printable data = true
     ↔ Forall (λ b, b = 0 ∨ counts_as_printable b = true) data)
  ∧ (scan_printable data = true → formatData data = format_text data)
  ∧ (scan_printable data = false →
       formatData data
       = if 32 <? len data
         then hex_Dump (take 32 data)
              ++ of_string "... (" ++ fmt_d (len data) ++ of_string " bytes total)"
         else hex_Dump data)
  ∧ (len data ≤ 240 → Forall (λ b, b ≠ 0) data →
       isPrintable data = false → scan_printable data = false).
Proof.
  intros Hne. rewrite (formatData_nonempty data Hne).
  split; [apply scan_printable_Forall|]. split; [|split].
  - intros ->. reflexivity.
  - intros ->. unfold format_hex. rewrite Z.gtb_ltb. reflexivity.
  - intros Hlen Hnz Hbin. destruct (scan_printable data) eqn:Hscan; [|reflexivity].
    rewrite (scan_printable_isPrintable data Hne Hlen Hnz Hscan) in Hbin. discriminate.
Qed.

Lemma formatData_branches_witness :
  (scan_printable hello_01 = true
     ↔ Forall (λ b, b = 0 ∨ counts_as_printable b = true) hello_01)
  ∧ (scan_printable hello_01 = true → formatData hello_01 = format_text hello_01)
  ∧ (scan_printable hello_01 = false →
       formatData hello_01
       = if 32 <? len hello_01
         then hex_Dump (take 32 hello_01)
              ++ of_string "... (" ++ fmt_d (len hello_01) ++ of_string " bytes total)"
         else hex_Dump hello_01)
  ∧ (len hello_01 ≤ 240 → Forall (λ b, b ≠ 0) hello_01 →
       isPrintable hello_01 = false → scan_printable hello_01 = false).
Proof.
  apply (formatData_branches hello_01). discriminate.
Defined.

(** One printable byte followed by nine nulls. *)
Definition a_and_nulls : list Z := 65 :: replicate 9 0.

(** C4, as stated, fails in both directions: "Hello, World!\x01" classifies
    as text (13 of 14 bytes) and is rendered as a hex dump, and "A" followed
    by nine null bytes classifies as binary (1 of 10) and is rendered as the
    text line "A". *)
Lemma formatData_not_by_ratio :
  (isPrintable hello_01 = true
   ∧ formatData hello_01 = hex_Dump hello_01
   ∧ formatData hello_01 ≠ format_text hello_01)
  ∧ (isPrintable a_and_nulls = false
     ∧ formatData a_and_nulls = of_string "A"
     ∧ formatData a_and_nulls ≠ hex_Dump a_and_nulls).
Proof.
  repeat split; try (vm_compute; reflexivity); vm_compute; discriminate.
Qed.

(** *** The text branch *)

(** The part of a payload before its first null byte. *)
Fixpoint until_null (data : list Z) : list Z :=
  match data with
  | [] => []
  | b :: rest => if b =? 0 then [] else b :: until_null rest
  end.

(** The rendering of one byte of a text line: newline, carriage return and
    tab become a backslash and a letter, any other byte stands for itself. *)
Definition escape (b : Z) : list Z :=
  if b =? 10 then [92; 110]
  else if b =? 13 then [92; 114]
  else if b =? 9 then [92; 116]
  else [b].

Lemma until_null_split data :
  ∃ rest, data = until_null data ++ rest ∧ (rest = [] ∨ ∃ r, rest = 0 :: r).
Proof.
  induction data as [|b data [rest [Hsplit Hrest]]]; cbn [until_null].
  - exists []. split; [reflexivity | left; reflexivity].
  - destruct (Z.eqb_spec b 0) as [->|Hb].
    + exists (0 :: data). split; [reflexivity | right; eexists; reflexivity].
    + exists rest. split; [cbn [app]; f_equal; exact Hsplit | exact Hrest].
Qed.

Lemma until_null_no_null data : Forall (λ b, b ≠ 0) (until_null data).
Proof.
  induction data as [|b data IH]; cbn [until_null]; [constructor|].
  destruct (Z.eqb_spec b 0); constructor; assumption.
Qed.

(** [bytes.IndexByte (data, 0)] finds where [until_null] stops. *)
Lemma IndexByte_from_until_null data : ∀ i, 0 ≤ i →
  (IndexByte_from data 0 i = -1 ∧ until_null data = data)
  ∨ (i ≤ IndexByte_from data 0 i
     ∧ take (Z.to_nat (IndexByte_from data 0 i - i)) data = until_null data).
Proof.
  induction data as [|b data IH]; intros i Hi; cbn [IndexByte_from until_null].
  - left. split; reflexivity.
  - destruct (Z.eqb_spec b 0) as [->|Hb].
    + right. split; [lia|]. rewrite Z.sub_diag. reflexivity.
    + destruct (IH (i + 1) ltac:(lia)) as [[Hidx Heq]|[Hle Heq]].
      * left. split; [exact Hidx | f_equal; exact Heq].
      * right. split; [lia|].
        replace (Z.to_nat (IndexByte_from data 0 (i + 1) - i))
          with (S (Z.to_nat (IndexByte_from data 0 (i + 1) - (i + 1)))) by lia.
        cbn [take]. f_equal. exact Heq.
Qed.

Lemma truncate_at_null data :
  (if bytes_IndexByte data 0 >=? 0
   then take (Z.to_nat (bytes_IndexByte data 0)) data
   else data) = until_null data.
Proof.
  unfold bytes_IndexByte.
  destruct (IndexByte_from_until_null data 0 ltac:(lia)) as [[Hidx Heq]|[Hle Heq]].
  - rewrite Hidx. cbn. symmetry. exact Heq.
  - rewrite Z.sub_0_r in Heq.
    destruct (Z.geb_spec (IndexByte_from data 0 0) 0); [exact Heq | lia].
Qed.

(** Trimming trailing nulls changes nothing once no null is left. *)
Lemma bytes_TrimRight_no_null l :
  Forall (λ b, b ≠ 0) l → bytes_TrimRight l [0] = l.
Proof.
  induction 1 as [|b l Hb _ IH]; cbn [bytes_TrimRight]; [reflexivity|].
  rewrite IH. destruct l as [|c l']; [|reflexivity].
  cbn [existsb]. destruct (Z.eqb_spec b 0); [contradiction | reflexivity].
Qed.

Lemma strings_ReplaceAll_app s t old new :
  strings_ReplaceAll (s ++ t) old new
  = strings_ReplaceAll s old new ++ strings_ReplaceAll t old new.
Proof.
  induction s as [|b s IH]; cbn [strings_ReplaceAll app]; [reflexivity|].
  rewrite IH, app_assoc. reflexivity.
Qed.

(** The three replacements in a row act byte by byte. *)
Lemma replace_chain s :
  strings_ReplaceAll
    (strings_ReplaceAll (strings_ReplaceAll s 10 (of_string "\n")) 13 (of_string "\r"))
    9 (of_string "\t")
  = concat (map escape s).
Proof.
  induction s as [|b s IH]; [reflexivity|].
  cbn [strings_ReplaceAll map concat].
  rewrite !strings_ReplaceAll_app, IH. f_equal.
  unfold escape.
  destruct (Z.eqb_spec b 10) as [->|H10]; [reflexivity|].
  cbn [strings_ReplaceAll app].
  destruct (Z.eqb_spec b 13) as [->|H13]; [reflexivity|].
  cbn [strings_ReplaceAll app].
  destruct (Z.eqb_spec b 9) as [->|H9]; reflexivity.
Qed.

Lemma format_text_escape data :
  format_text data = concat (map escape (until_null data)).
Proof.
  unfold format_text. rewrite truncate_at_null.
  rewrite bytes_TrimRight_no_null by apply until_null_no_null.
  apply replace_chain.
Qed.

(** C6. A payload formatted as text is cut at its first null byte (whatever
    follows is ignored and no null is shown), each newline, carriage return
    and tab of the shown part is written as backslash-n, backslash-r,
    backslash-t, and every other byte is written unchanged. *)
Theorem formatData_text_escapes (data : list Z) :
  data ≠ [] → scan_printable data = true →
  ∃ shown rest,
    data = shown ++ rest
    ∧ (rest = [] ∨ ∃ r, rest = 0 :: r)
    ∧ Forall (λ b, b ≠ 0) shown
    ∧ formatData data = concat (map escape shown)
    ∧ escape 10 = of_string "\n" ∧ escape 13 = of_string "\r" ∧ escape 9 = of_string "\t"
    ∧ (∀ b, b ≠ 10 → b ≠ 13 → b ≠ 9 → escape b = [b]).
Proof.
  intros Hne Hscan.
  destruct (until_null_split data) as [rest [Hsplit Hrest]].
  exists (until_null data), rest.
  split; [exact Hsplit|]. split; [exact Hrest|].
  split; [apply until_null_no_null|]. split.
  - rewrite (formatData_nonempty data Hne), Hscan. apply format_text_escape.
  - repeat split. intros b H10 H13 H9. unfold escape.
    destruct (Z.eqb_spec b 10); [contradiction|].
    destruct (Z.eqb_spec b 13); [contradiction|].
    destruct (Z.eqb_spec b 9); [contradiction | reflexivity].
Qed.

(** "a<TAB>b<LF>", a null, then bytes that are not shown. *)
Definition tabbed_line : list Z := [97; 9; 98; 10; 0; 122; 122; 0].

Lemma formatData_text_escapes_witness :
  ∃ shown rest,
    tabbed_line = shown ++ rest
    ∧ (rest = [] ∨ ∃ r, rest = 0 :: r)
    ∧ Forall (λ b, b ≠ 0) shown
    ∧ formatData tabbed_line = concat (map escape shown)
    ∧ escape 10 = of_string "\n" ∧ escape 13 = of_string "\r" ∧ escape 9 = of_string "\t"
    ∧ (∀ b, b ≠ 10 → b ≠ 13 → b ≠ 9 → escape b = [b]).
Proof.
  apply (formatData_text_escapes tabbed_line); [discriminate | reflexivity].
Defined.

End FormatFacts.

Module CliFacts.
Import Wire Format Cli.

(** The event and payload of a record that reaches the repeat check: no lost
    samples, a full layout, a descriptor the filter lets through, a slice in
    bounds, and not skipped as binary. *)
Definition accepted (cfg : config) (record : perf_Record)
  : option (bpfWriteEvent * list Z) :=
  if negb (LostSamples record =? 0) then None
  else
    match binary_Read (RawSample record) with
    | inl _ => None
    | inr event =>
        if negb (showAll cfg) && negb (default false (fdFilter cfg !! FD event)) then None
        else
          match slice_to (Data event) (DataLen event) with
          | None => None
          | Some data =>
              if skipBinary cfg && negb (isPrintable data) then None
              else Some (event, data)
          end
    end.

(** A record that repeats the last displayed event. *)
Definition duplicate (cfg : config) (st : loop_state) (record : perf_Record) : bool :=
  match accepted cfg record with
  | Some (event, data) => is_repeat st event (formatData data)
  | None => false
  end.

Definition suppressed (st : loop_state) (n : Z) : loop_state :=
  {| lastEvent := lastEvent st; lastDataStr := lastDataStr st;
     repeatCount := repeatCount st + n;
     stdout := stdout st; stderr := stderr st |}.

Definition displayed (st : loop_state) (summary : list (list Z))
  (event : bpfWriteEvent) (dataStr : list Z) : loop_state :=
  {| lastEvent := Some event; lastDataStr := dataStr; repeatCount := 0;
     stdout := stdout st ++ summary ++ [line_event (PID event) (FD event) dataStr];
     stderr := stderr st |}.

Lemma iteration_accepted cfg st record event data :
  accepted cfg record = Some (event, data) →
  iteration cfg st (ReadOk record)
  = if suppressRepeats cfg && is_repeat st event (formatData data)
    then Continue (suppressed st 1)
    else
      match (if repeatCount st >? 0
             then match lastEvent st with
                  | Some last => Some [line_repeated (PID last) (FD last) (repeatCount st)]
                  | None => None
                  end
             else Some [])
      with
      | None => Panic st
      | Some summary => Continue (displayed st summary event (formatData data))
      end.
Proof.
  unfold accepted, iteration. intros H.
  destruct (negb (LostSamples record =? 0)); [discriminate|].
  destruct (binary_Read (RawSample record)) as [e|ev]; [discriminate|].
  destruct (negb (showAll cfg) && negb (default false (fdFilter cfg !! FD ev)));
    [discriminate|].
  destruct (slice_to (Data ev) (DataLen ev)) as [d|]; [|discriminate].
  destruct (skipBinary cfg && negb (isPrintable d)); [discriminate|].
  injection H as -> ->. reflexivity.
Qed.

Lemma is_repeat_spec st event dataStr :
  is_repeat st event dataStr = true
  ↔ ∃ last, lastEvent st = Some last ∧ FD last = FD event ∧ lastDataStr st = dataStr.
Proof.
  unfold is_repeat. destruct (lastEvent st) as [last|].
  - rewrite andb_true_iff, Z.eqb_eq, bool_decide_eq_true. split.
    + intros [Hfd Hstr]. exists last. auto.
    + intros [l [[= <-] [Hfd Hstr]]]. auto.
  - split; [discriminate | intros [l [[=] _]]].
Qed.

Lemma is_repeat_suppressed st n event dataStr :
  is_repeat (suppressed st n) event dataStr = is_repeat st event dataStr.
Proof. reflexivity. Qed.

(** A run of duplicates only moves the counter. *)
Lemma run_duplicates cfg : suppressRepeats cfg = true →
  ∀ dups st rest,
    Forall (λ d, duplicate cfg st d = true) dups →
    run cfg st (map ReadOk dups ++ rest) = run cfg (suppressed st (len dups)) rest.
Proof.
  intros Hsup. induction dups as [|d dups IH]; intros st rest Hall.
  - cbn [map app]. f_equal. destruct st; unfold suppressed, len; cbn. f_equal. lia.
  - apply Forall_cons in Hall as [Hd Hall]. cbn [map app run].
    unfold duplicate in Hd.
    destruct (accepted cfg d) as [[event data]|] eqn:Hacc; [|discriminate].
    rewrite (iteration_accepted cfg st d event data Hacc), Hsup, Hd. cbn [andb].
    rewrite IH.
    + f_equal. unfold suppressed, len. cbn. f_equal. lia.
    + eapply Forall_impl; [exact Hall|]. intros r Hr. exact Hr.
Qed.

(** C7 (as the code has it). With repeat suppression on, an event that
    reaches the repeat check is suppressed exactly when its descriptor and
    formatted line equal those of the last displayed event; a suppressed
    event prints nothing and adds one to the counter; any other event is
    displayed and becomes the last displayed event.  After one or more
    consecutive repeats, the next event that is not a repeat first prints one
    summary line with the number of repeats collapsed, then its own line. *)
Theorem repeat_suppression cfg st record event data :
  suppressRepeats cfg = true →
  accepted cfg record = Some (event, data) →
  (is_repeat st event (formatData data) = true
     ↔ ∃ last, lastEvent st = Some last ∧ FD last = FD event
               ∧ lastDataStr st = formatData data)
  ∧ (is_repeat st event (formatData data) = true →
       iteration cfg st (ReadOk record) = Continue (suppressed st 1))
  ∧ (is_repeat st event (formatData data) = false → repeatCount st = 0 →
       iteration cfg st (ReadOk record)
       = Continue (displayed st [] event (formatData data)))
  ∧ (∀ last dups rest,
       is_repeat st event (formatData data) = false →
       lastEvent st = Some last → repeatCount st = 0 → dups ≠ [] →
       Forall (λ d, duplicate cfg st d = true) dups →
       run cfg st (map ReadOk dups ++ ReadOk record :: rest)
       = run cfg (displayed st [line_repeated (PID last) (FD last) (len dups)]
                            event (formatData data)) rest).
Proof.
  intros Hsup Hacc. split; [apply is_repeat_spec|]. split; [|split].
  - intros Hrep. rewrite (iteration_accepted cfg st record event data Hacc), Hsup, Hrep.
    reflexivity.
  - intros Hnew Hzero.
    rewrite (iteration_accepted cfg st record event data Hacc), Hsup, Hnew, Hzero.
    reflexivity.
  - intros last dups rest Hnew Hlast Hzero Hne Hall.
    rewrite (run_duplicates cfg Hsup dups st _ Hall). cbn [run].
    rewrite (iteration_accepted cfg _ record event data Hacc), Hsup.
    rewrite is_repeat_suppressed, Hnew. cbn [andb].
    cbn [suppressed repeatCount lastEvent]. rewrite Hlast, Hzero.
    assert (Hpos : (0 + len dups >? 0) = true).
    { apply Z.gtb_lt. unfold len. destruct dups; [congruence | cbn [length]; lia]. }
    rewrite Hpos. reflexivity.
Qed.

(** Two writes of the traced process to stdout. *)
Definition tick : Kernel.write_event_t :=
  {| Kernel.pid := 4242; Kernel.fd := 1;
     Kernel.data := of_string "tick" ++ replicate 236 0; Kernel.data_len := 4 |}.
Definition tock : Kernel.write_event_t :=
  {| Kernel.pid := 4242; Kernel.fd := 1;
     Kernel.data := of_string "tock" ++ replicate 236 0; Kernel.data_len := 4 |}.
Definition record_of (ev : Kernel.write_event_t) : perf_Record :=
  {| RawSample := encode ev; LostSamples := 0 |}.
Definition event_of (ev : Kernel.write_event_t) : bpfWriteEvent :=
  {| PID := Kernel.pid ev; FD := Kernel.fd ev;
     Data := Kernel.data ev; DataLen := Kernel.data_len ev |}.

Definition no_repeats : config :=
  {| showAll := true; fdFilter := ∅; skipBinary := false; suppressRepeats := true |}.

(** The state after "tick" was displayed. *)
Definition after_tick : loop_state :=
  displayed initial [] (event_of tick) (of_string "tick").

Lemma repeat_suppression_witness :
  run no_repeats after_tick
      (map ReadOk [record_of tick; record_of tick] ++ ReadOk (record_of tock) :: [])
  = run no_repeats
        (displayed after_tick [line_repeated 4242 1 2] (event_of tock) (of_string "tock"))
        [].
Proof.
  refine (proj2 (proj2 (proj2
            (repeat_suppression no_repeats after_tick (record_of tock)
               (event_of tock) (of_string "tock") eq_refl _)))
            (event_of tick) [record_of tick; record_of tick] [] _ eq_refl eq_refl _ _).
  - vm_compute. reflexivity.
  - vm_compute. reflexivity.
  - discriminate.
  - repeat constructor; vm_compute; reflexivity.
Defined.

(** A different line in between keeps two equal lines apart: all three are
    displayed and nothing is counted. *)
Lemma intervening_line_prevents_collapse :
  run no_repeats initial
      [ReadOk (record_of tick); ReadOk (record_of tock); ReadOk (record_of tick)]
  = Continue
      {| lastEvent := Some (event_of tick); lastDataStr := of_string "tick";
         repeatCount := 0;
         stdout := [line_event 4242 1 (of_string "tick");
                    line_event 4242 1 (of_string "tock");
                    line_event 4242 1 (of_string "tick")];
         stderr := [] |}.
Proof. vm_compute. reflexivity. Qed.

(** C7, as stated, fails at the end of the stream: after "tick" and two
    repeats of it, the closing of the reader (or the cancelled context) ends
    the loop with the one line of "tick" on the output and the count of two
    repeats never printed. *)
Lemma no_summary_at_end_of_stream :
  run no_repeats initial
      [ReadOk (record_of tick); ReadOk (record_of tick); ReadOk (record_of tick);
       ReadErr ErrClosed]
  = Return
      {| lastEvent := Some (event_of tick); lastDataStr := of_string "tick";
         repeatCount := 2;
         stdout := [line_event 4242 1 (of_string "tick")];
         stderr := [] |}
  ∧ run no_repeats initial
        [ReadOk (record_of tick); ReadOk (record_of tick); ReadOk (record_of tick);
         CtxDone]
    = Return
        {| lastEvent := Some (event_of tick); lastDataStr := of_string "tick";
           repeatCount := 2;
           stdout := [line_event 4242 1 (of_string "tick")];
           stderr := [] |}.
Proof. split; vm_compute; reflexivity. Qed.


End CliFacts.

Module TuiFacts.
Import Wire Format Tui.

Section WithLibraries.
Context `{L : Libraries}.


(** Every error message makes [Update] return the quit command. *)
Lemma Update_error (m : tuiModel) e : Update m (ErrorMsg e) = (set_err m (Some e), CmdQuit).
Proof. reflexivity. Qed.

Lemma deliver_error (s : session) e :
  quit s = false →
  deliver s (ErrorMsg e)
  = {| model := set_err (model s) (Some e); quit := true; reader := reader s |}.
Proof. intros Hq. unfold deliver. rewrite Hq. reflexivity. Qed.



(** C8. Confirming a draft that does not compile leaves no active pattern:
    [Update] stores the nil result of [regexp.Compile], leaves filter entry,
    and returns no quit command; the consumer is in [Normal] and the regex
    stage of [pollNextEvent] lets every payload through. *)
Theorem invalid_pattern_disables_filter (m : tuiModel) :
  filtering m = true → regexp_Compile (input_value m) = None →
  ∃ m', Update m (KeyMsg "enter") = (m', CmdBatch)
        ∧ grepRegex m' = None
        ∧ filtering m' = false
        ∧ err m' = err m
        ∧ (∀ payload, regex_stage m' payload = true)
        ∧ (∀ rd, state_of (deliver {| model := m; quit := false; reader := rd |}
                                   (KeyMsg "enter")) = Normal).
Proof.
  intros Hf Hc. eexists. split.
  - unfold Update. rewrite Hf. cbn [matches keys_Quit keys_Enter existsb String.eqb
      Ascii.eqb Bool.eqb orb]. reflexivity.
  - rewrite Hc. repeat split.
    intros rd. unfold deliver, state_of. cbn [quit model]. unfold Update. rewrite Hf.
    reflexivity.
Qed.

End WithLibraries.

(** *** Runs with the stand-in libraries *)

#[local] Existing Instance literal_libraries.

Definition running (m : tuiModel) (rd : list read_result) : session :=
  {| model := m; quit := false; reader := rd |}.

(** The model while the operator types the draft "(ab". *)
Definition typing_bad_pattern : tuiModel :=
  set_input (set_filtering newTUIModel true) (of_string "(ab") true.



Lemma invalid_pattern_disables_filter_witness :
  ∃ m', Update typing_bad_pattern (KeyMsg "enter") = (m', CmdBatch)
        ∧ grepRegex m' = None
        ∧ filtering m' = false
        ∧ err m' = err typing_bad_pattern
        ∧ (∀ payload, regex_stage m' payload = true)
        ∧ (∀ rd, state_of (deliver {| model := typing_bad_pattern; quit := false;
                                      reader := rd |}
                                   (KeyMsg "enter")) = Normal).
Proof.
  apply (invalid_pattern_disables_filter typing_bad_pattern); reflexivity.
Defined.

End TuiFacts.

Module SliceFacts.
Import Wire Format.

(** A record as it would cross the transport with a given [data_len]. *)
Definition record_with_len (pid fd : Z) (data : list Z) (n : Z) : Kernel.write_event_t :=
  {| Kernel.pid := pid; Kernel.fd := fd; Kernel.data := data; Kernel.data_len := n |}.

(** C10. The consumers take [data_len] from the record as it is and build the
    payload by the slice [Data[:DataLen]].  With [data_len <= 240] the slice is
    in bounds and gives the first [data_len] bytes.  With [data_len > 240] the
    record still decodes without an error, and the slice expression panics:
    [pollNextEvent] does not return a message, and the loop of the command
    line consumer does not continue. *)
Theorem slice_needs_data_len_bound `{L : Tui.Libraries}
    (pid fd : Z) (data : list Z) (n : Z) :
  0 ≤ pid < 2 ^ 32 → 0 ≤ fd < 2 ^ 32 → length data = 240%nat → 0 ≤ n < 2 ^ 32 →
  binary_Read (encode (record_with_len pid fd data n))
  = inr {| PID := pid; FD := fd; Data := data; DataLen := n |}
  ∧ (n ≤ 240 →
       slice_to data n = Some (take (Z.to_nat n) data)
       ∧ decode (encode (record_with_len pid fd data n))
         = Decoded {| ev_PID := pid; ev_FD := fd; Payload := take (Z.to_nat n) data |})
  ∧ (240 < n →
       slice_to data n = None
       ∧ decode (encode (record_with_len pid fd data n)) = DecodePanic
       ∧ (∀ (m : Tui.tuiModel) rest,
            Tui.pollNextEvent m (Tui.ReadSample (encode (record_with_len pid fd data n)) :: rest)
            = Tui.PollPanic)
       ∧ (∀ cfg st, Cli.showAll cfg = true →
            Cli.iteration cfg st
              (Cli.ReadOk {| Cli.RawSample := encode (record_with_len pid fd data n);
                             Cli.LostSamples := 0 |})
            = Cli.Panic st)).
Proof.
  intros Hp Hf Hd Hn.
  assert (Hread : binary_Read (encode (record_with_len pid fd data n))
                  = inr {| PID := pid; FD := fd; Data := data; DataLen := n |}).
  { apply (WireFacts.binary_Read_encode (record_with_len pid fd data n)); assumption. }
  assert (Hdec : decode (encode (record_with_len pid fd data n))
                 = match slice_to data n with
                   | None => DecodePanic
                   | Some p => Decoded {| ev_PID := pid; ev_FD := fd; Payload := p |}
                   end).
  { unfold decode. rewrite Hread. reflexivity. }
  split; [exact Hread|]. split.
  - intros Hle.
    assert (Hs : slice_to data n = Some (take (Z.to_nat n) data)).
    { apply WireFacts.slice_to_in_bounds. unfold len. lia. }
    split; [exact Hs|]. rewrite Hdec, Hs. reflexivity.
  - intros Hgt.
    assert (Hs : slice_to data n = None).
    { apply WireFacts.slice_to_out_of_bounds. unfold len. lia. }
    split; [exact Hs|]. split; [rewrite Hdec, Hs; reflexivity|]. split.
    + intros m rest. cbn [Tui.pollNextEvent]. rewrite Hdec, Hs. reflexivity.
    + intros cfg st Hall. unfold Cli.iteration. cbn [Cli.LostSamples Cli.RawSample].
      rewrite Hread. cbn [FD Data DataLen]. rewrite Hall, Hs. reflexivity.
Qed.

Lemma slice_needs_data_len_bound_witness :
  binary_Read (encode (record_with_len 4242 1 (replicate 240 65) 241))
  = inr {| PID := 4242; FD := 1; Data := replicate 240 65; DataLen := 241 |}
  ∧ (241 ≤ 240 →
       slice_to (replicate 240 65) 241 = Some (take (Z.to_nat 241) (replicate 240 65))
       ∧ decode (encode (record_with_len 4242 1 (replicate 240 65) 241))
         = Decoded {| ev_PID := 4242; ev_FD := 1;
                      Payload := take (Z.to_nat 241) (replicate 240 65) |})
  ∧ (240 < 241 →
       slice_to (replicate 240 65) 241 = None
       ∧ decode (encode (record_with_len 4242 1 (replicate 240 65) 241)) = DecodePanic
       ∧ (∀ (m : @Tui.tuiModel Tui.literal_libraries) rest,
            Tui.pollNextEvent m
              (Tui.ReadSample (encode (record_with_len 4242 1 (replicate 240 65) 241)) :: rest)
            = Tui.PollPanic)
       ∧ (∀ cfg st, Cli.showAll cfg = true →
            Cli.iteration cfg st
              (Cli.ReadOk {| Cli.RawSample :=
                               encode (record_with_len 4242 1 (replicate 240 65) 241);
                             Cli.LostSamples := 0 |})
            = Cli.Panic st)).
Proof.
  apply (@slice_needs_data_len_bound Tui.literal_libraries 4242 1 (replicate 240 65) 241);
    [lia | lia | reflexivity | lia].
Defined.

End SliceFacts.

(** * Further properties of the capture program *)

Module KernelMore.
Import Kernel.

Lemma copy_from_user_reads mem : ∀ (buf : list Z) addr,
  (∀ i, (i < length buf)%nat → mem (addr + Z.of_nat i) = buf !! i) →
  copy_from_user mem addr (length buf) = Some buf.
Proof.
  induction buf as [|b buf IH]; intros addr Hmem; [reflexivity|].
  cbn [length copy_from_user].
  pose proof (Hmem 0%nat ltac:(cbn; lia)) as H0.
  rewrite Z.add_0_r in H0. cbn in H0. rewrite H0.
  rewrite IH; [reflexivity|].
  intros i Hi. specialize (Hmem (S i) ltac:(cbn; lia)).
  etrans; [|exact Hmem]. f_equal. lia.
Qed.

Lemma copy_from_user_fault mem : ∀ n addr i,
  (i < n)%nat → mem (addr + Z.of_nat i) = None → copy_from_user mem addr n = None.
Proof.
  induction n as [|n IH]; intros addr i Hi Hnone; [lia|].
  cbn [copy_from_user]. destruct i as [|i].
  - rewrite Z.add_0_r in Hnone. rewrite Hnone. reflexivity.
  - rewrite (IH (addr + 1) i); [destruct (mem addr); reflexivity | lia |].
    rewrite <- Hnone. f_equal. lia.
Qed.

Lemma copy_from_user_bytes mem :
  (∀ a b, mem a = Some b → 0 ≤ b < 256) →
  ∀ n addr bs, copy_from_user mem addr n = Some bs → Forall (λ b, 0 ≤ b < 256) bs.
Proof.
  intros Hmem. induction n as [|n IH]; intros addr bs; cbn [copy_from_user].
  - intros [= <-]. constructor.
  - destruct (mem addr) as [b|] eqn:Hb; [|discriminate].
    destruct (copy_from_user mem (addr + 1) n) as [rest|] eqn:Hrest; [|discriminate].
    intros [= <-]. constructor; [exact (Hmem _ _ Hb) | exact (IH _ _ Hrest)].
Qed.

(** The clamped count, as the probe computes it. *)
Definition clamped (ctx : trace_ctx) : Z := Z.min (arg_count ctx) 240.

(** What the probe publishes for a watched caller, with the data written out. *)
Lemma trace_write_watched (target_pid : gmap Z Z) mem ctx w :
  0 ≤ arg_count ctx < 2 ^ 64 →
  target_pid !! u32 (Z.shiftr (pid_tgid ctx) 32) = Some w →
  trace_write target_pid mem ctx
  = Some {| pid := u32 (Z.shiftr (pid_tgid ctx) 32);
            fd := u32 (arg_fd ctx);
            data := if clamped ctx >? 0
                    then bpf_probe_read_user (replicate 240 0) (clamped ctx) mem (arg_buf ctx)
                    else replicate 240 0;
            data_len := clamped ctx |}.
Proof.
  intros Hc Hw. unfold trace_write, clamped, DATA_SIZE. rewrite Hw.
  assert (Hcount : (if arg_count ctx >? 240 then 240 else arg_count ctx)
                   = Z.min (arg_count ctx) 240).
  { destruct (Z.gtb_spec (arg_count ctx) 240); lia. }
  rewrite Hcount. change (Z.to_nat 240) with 240%nat.
  unfold u32 at 3. rewrite (Z.mod_small (Z.min (arg_count ctx) 240)) by lia.
  reflexivity.
Qed.

Lemma u32_range x : 0 ≤ u32 x < 2 ^ 32.
Proof. unfold u32. apply Z.mod_pos_bound. lia. Qed.

(** X1. When the bytes of the written buffer are readable, the payload of
    the published record is the buffer's first [min (count, 240)] bytes, and
    the data array is that payload followed by zero bytes. *)
Theorem trace_write_captures_buffer (target_pid : gmap Z Z) mem ctx w (buf : list Z) :
  0 ≤ arg_count ctx < 2 ^ 64 →
  target_pid !! u32 (Z.shiftr (pid_tgid ctx) 32) = Some w →
  len buf = Z.min (arg_count ctx) 240 →
  (∀ i, (i < length buf)%nat → mem (arg_buf ctx + Z.of_nat i) = buf !! i) →
  ∃ ev, trace_write target_pid mem ctx = Some ev
        ∧ payload ev = buf
        ∧ data ev = buf ++ replicate (240 - length buf) 0.
Proof.
  intros Hc Hw Hlen Hmem.
  rewrite (trace_write_watched target_pid mem ctx w Hc Hw).
  eexists. split; [reflexivity|]. unfold payload. cbn [data data_len].
  unfold clamped. rewrite <- Hlen. unfold len in *.
  destruct (Z.gtb_spec (Z.of_nat (length buf)) 0) as [Hpos|Hzero].
  - unfold bpf_probe_read_user. rewrite Nat2Z.id.
    rewrite (copy_from_user_reads mem buf (arg_buf ctx) Hmem).
    rewrite drop_replicate. split; [|reflexivity].
    rewrite take_app_length. reflexivity.
  - destruct buf; [|cbn [length] in Hzero; lia]. split; reflexivity.
Qed.

Definition greeting : list Z := of_string "Starting test process".

Definition greeting_memory : user_memory :=
  λ addr, if (4096 <=? addr) && (addr <? 4096 + len greeting)
          then greeting !! Z.to_nat (addr - 4096) else None.

Definition greeting_write : trace_ctx :=
  {| pid_tgid := 4242 * 2 ^ 32 + 4250; arg_fd := 1; arg_buf := 4096;
     arg_count := len greeting |}.

Lemma trace_write_captures_buffer_witness :
  ∃ ev, trace_write KernelFacts.watched greeting_memory greeting_write = Some ev
        ∧ payload ev = greeting
        ∧ data ev = greeting ++ replicate (240 - length greeting) 0.
Proof.
  apply (trace_write_captures_buffer KernelFacts.watched greeting_memory greeting_write
           4242 greeting).
  - vm_compute. split; [discriminate | reflexivity].
  - vm_compute. reflexivity.
  - vm_compute. reflexivity.
  - intros i Hi. change (length greeting) with 21%nat in Hi.
    do 21 (destruct i as [|i]; [vm_compute; reflexivity|]). lia.
Defined.

(** X2. When one of the bytes the probe reads, the first
    [min (count, 240)] bytes of the buffer, is not readable, the record is
    published all the same, with the clamped length and a data array of 240
    zero bytes: the payload is [data_len] zero bytes.  (Bytes of the buffer
    beyond the first 240 are never read.) *)
Theorem trace_write_fault_zeroes (target_pid : gmap Z Z) mem ctx w (i : Z) :
  0 ≤ arg_count ctx < 2 ^ 64 →
  target_pid !! u32 (Z.shiftr (pid_tgid ctx) 32) = Some w →
  0 ≤ i < Z.min (arg_count ctx) 240 →
  mem (arg_buf ctx + i) = None →
  ∃ ev, trace_write target_pid mem ctx = Some ev
        ∧ data_len ev = Z.min (arg_count ctx) 240
        ∧ data ev = replicate 240 0
        ∧ payload ev = replicate (Z.to_nat (Z.min (arg_count ctx) 240)) 0.
Proof.
  intros Hc Hw Hi Hnone.
  rewrite (trace_write_watched target_pid mem ctx w Hc Hw).
  eexists. split; [reflexivity|]. unfold payload. cbn [data data_len]. unfold clamped.
  destruct (Z.gtb_spec (Z.min (arg_count ctx) 240) 0) as [Hpos|Hzero]; [|lia].
  unfold bpf_probe_read_user.
  rewrite (copy_from_user_fault mem _ (arg_buf ctx) (Z.to_nat i)); [ | lia | ].
  - rewrite drop_replicate, <- replicate_add.
    replace (Z.to_nat (Z.min (arg_count ctx) 240)
             + (240 - Z.to_nat (Z.min (arg_count ctx) 240)))%nat with 240%nat by lia.
    split; [reflexivity|]. split; [reflexivity|].
    rewrite take_replicate. f_equal. lia.
  - rewrite Z2Nat.id by lia. exact Hnone.
Qed.

Lemma trace_write_fault_zeroes_witness :
  ∃ ev, trace_write KernelFacts.watched greeting_memory
          {| pid_tgid := 4242 * 2 ^ 32 + 4250; arg_fd := 1; arg_buf := 4096;
             arg_count := 100 |} = Some ev
        ∧ data_len ev = Z.min 100 240
        ∧ data ev = replicate 240 0
        ∧ payload ev = replicate (Z.to_nat (Z.min 100 240)) 0.
Proof.
  apply (trace_write_fault_zeroes KernelFacts.watched greeting_memory
           {| pid_tgid := 4242 * 2 ^ 32 + 4250; arg_fd := 1; arg_buf := 4096;
              arg_count := 100 |} 4242 50).
  - vm_compute. split; [discriminate | reflexivity].
  - vm_compute. reflexivity.
  - vm_compute. split; [discriminate | reflexivity].
  - vm_compute. reflexivity.
Defined.

End KernelMore.

(** * Further properties of the wire format *)

Module WireMore.
Import Kernel Wire.

Lemma get_le32_app (l pad : list Z) :
  (4 ≤ length l)%nat → get_le32 (l ++ pad) = get_le32 l.
Proof.
  intros H. do 4 (destruct l as [|? l]; [cbn [length] in H; lia|]). reflexivity.
Qed.

(** [binary.Read] reads the 252 bytes of the layout and nothing after them. *)
Lemma binary_Read_app (raw pad : list Z) :
  RECORD_SIZE ≤ len raw → binary_Read (raw ++ pad) = binary_Read raw.
Proof.
  unfold RECORD_SIZE, len. intros H. unfold binary_Read, len, RECORD_SIZE.
  rewrite length_app.
  destruct (Z.eqb_spec (Z.of_nat (length raw + length pad)) 0); [lia|].
  destruct (Z.eqb_spec (Z.of_nat (length raw)) 0); [lia|].
  destruct (Z.ltb_spec (Z.of_nat (length raw + length pad)) 252); [lia|].
  destruct (Z.ltb_spec (Z.of_nat (length raw)) 252); [lia|].
  f_equal. f_equal.
  - apply get_le32_app. lia.
  - rewrite drop_app_le by lia. apply get_le32_app. rewrite length_drop. lia.
  - rewrite drop_app_le by lia. apply take_app_le. rewrite length_drop. lia.
  - rewrite drop_app_le by lia. apply get_le32_app. rewrite length_drop. lia.
Qed.

Lemma lor_below (a b n : Z) :
  0 ≤ n → 0 ≤ a < 2 ^ n → 0 ≤ b < 2 ^ n → 0 ≤ Z.lor a b < 2 ^ n.
Proof.
  intros Hn Ha Hb.
  assert (Hnn : 0 ≤ Z.lor a b) by (apply Z.lor_nonneg; lia).
  split; [exact Hnn|].
  destruct (Z.eq_dec (Z.lor a b) 0) as [->|Hne]; [lia|].
  apply Z.log2_lt_pow2; [lia|].
  rewrite Z.log2_lor by lia.
  destruct (Z.eq_dec a 0) as [->|Ha0]; destruct (Z.eq_dec b 0) as [->|Hb0].
  - exfalso. apply Hne. reflexivity.
  - rewrite Z.max_r by (cbn; apply Z.log2_nonneg). apply Z.log2_lt_pow2; lia.
  - rewrite Z.max_l by (cbn; apply Z.log2_nonneg). apply Z.log2_lt_pow2; lia.
  - apply Z.max_lub_lt; apply Z.log2_lt_pow2; lia.
Qed.

Lemma get_le32_range (l : list Z) :
  Forall (λ b, 0 ≤ b < 256) l → 0 ≤ get_le32 l < 2 ^ 32.
Proof.
  intros Hl. unfold get_le32.
  destruct l as [|b0 [|b1 [|b2 [|b3 l]]]]; try lia.
  apply Forall_cons in Hl as [H0 Hl]. apply Forall_cons in Hl as [H1 Hl].
  apply Forall_cons in Hl as [H2 Hl]. apply Forall_cons in Hl as [H3 _].
  rewrite !Z.shiftl_mul_pow2 by lia.
  repeat apply lor_below; lia.
Qed.

Lemma Forall_drop_bytes (l : list Z) n :
  Forall (λ b, 0 ≤ b < 256) l → Forall (λ b, 0 ≤ b < 256) (drop n l).
Proof. apply Forall_drop. Qed.

(** X3. A sample decodes with an error exactly when it is shorter than the
    252 bytes of the layout: an empty sample gives [io.EOF], a shorter one
    [io.ErrUnexpectedEOF], and a sample of full size never gives an error. *)
Theorem decode_error_iff_short (raw : list Z) :
  ((∃ e, decode raw = DecodeError e) ↔ len raw < RECORD_SIZE)
  ∧ (decode raw = DecodeError EOF ↔ raw = [])
  ∧ (decode raw = DecodeError ErrUnexpectedEOF ↔ 0 < len raw < RECORD_SIZE).
Proof.
  unfold decode, binary_Read, RECORD_SIZE, len.
  destruct raw as [|b raw]; cbn [length].
  - change (Z.of_nat 0 =? 0) with true. cbn iota.
    split; [|split]; split; try (intros; reflexivity); try lia; try discriminate.
    intros _. exists EOF. reflexivity.
  - destruct (Z.eqb_spec (Z.of_nat (S (length raw))) 0); [lia|].
    destruct (Z.ltb_spec (Z.of_nat (S (length raw))) 252) as [Hlt|Hge].
    + split; [|split]; split; try discriminate; try lia; intros _.
      * exists ErrUnexpectedEOF. reflexivity.
      * reflexivity.
    + cbn [Data DataLen PID FD].
      destruct (slice_to _ _);
        (split; [|split]; split; try discriminate; try lia; intros [e He]; discriminate).
Qed.

(** X4. Bytes after the 252 bytes of the layout do not change what a sample
    decodes to (the perf transport pads its samples). *)
Theorem decode_ignores_trailing_bytes (raw pad : list Z) :
  RECORD_SIZE ≤ len raw → decode (raw ++ pad) = decode raw.
Proof.
  intros H. unfold decode. rewrite (binary_Read_app raw pad H). reflexivity.
Qed.

Lemma decode_ignores_trailing_bytes_witness :
  decode (encode CliFacts.tick ++ [0; 0; 0; 0]) = decode (encode CliFacts.tick).
Proof.
  apply (decode_ignores_trailing_bytes (encode CliFacts.tick) [0; 0; 0; 0]).
  vm_compute. discriminate.
Defined.

(** X5. Whatever the sample, a decoded event is within the bounds of the
    data model: its payload has at most 240 bytes, and when the sample
    consists of bytes its pid and descriptor are 32-bit values. *)
Theorem decoded_event_bounds (raw : list Z) (e : Event) :
  decode raw = Decoded e →
  len (Payload e) ≤ 240
  ∧ (Forall (λ b, 0 ≤ b < 256) raw →
       0 ≤ ev_PID e < 2 ^ 32 ∧ 0 ≤ ev_FD e < 2 ^ 32
       ∧ Forall (λ b, 0 ≤ b < 256) (Payload e)).
Proof.
  unfold decode, binary_Read.
  destruct (len raw =? 0); [discriminate|].
  destruct (len raw <? RECORD_SIZE); [discriminate|].
  cbn [Data DataLen PID FD]. unfold slice_to.
  destruct (_ <=? _); [|discriminate].
  intros [= <-]. cbn [Payload ev_PID ev_FD]. split.
  - unfold len. rewrite !length_take. lia.
  - intros Hraw. split; [apply get_le32_range, Hraw|].
    split; [apply get_le32_range, Forall_drop, Hraw|].
    apply Forall_take, Forall_take, Forall_drop, Hraw.
Qed.

Lemma decoded_event_bounds_witness :
  len (Payload {| ev_PID := 4242; ev_FD := 1; Payload := of_string "tick" |}) ≤ 240
  ∧ (Forall (λ b, 0 ≤ b < 256) (encode CliFacts.tick) →
       0 ≤ ev_PID {| ev_PID := 4242; ev_FD := 1; Payload := of_string "tick" |} < 2 ^ 32
       ∧ 0 ≤ ev_FD {| ev_PID := 4242; ev_FD := 1; Payload := of_string "tick" |} < 2 ^ 32
       ∧ Forall (λ b, 0 ≤ b < 256)
           (Payload {| ev_PID := 4242; ev_FD := 1; Payload := of_string "tick" |})).
Proof.
  apply (decoded_event_bounds (encode CliFacts.tick)
           {| ev_PID := 4242; ev_FD := 1; Payload := of_string "tick" |}).
  vm_compute. reflexivity.
Defined.

(** The record of a watched caller has the shape the wire format expects. *)
Lemma trace_write_well_formed (target_pid : gmap Z Z) mem ctx ev :
  0 ≤ arg_count ctx < 2 ^ 64 →
  trace_write target_pid mem ctx = Some ev →
  pid ev = u32 (Z.shiftr (pid_tgid ctx) 32)
  ∧ fd ev = u32 (arg_fd ctx)
  ∧ data_len ev = Z.min (arg_count ctx) 240
  ∧ length (data ev) = 240%nat.
Proof.
  intros Hc Hev.
  destruct (target_pid !! u32 (Z.shiftr (pid_tgid ctx) 32)) as [w|] eqn:Hw.
  - rewrite (KernelMore.trace_write_watched target_pid mem ctx w Hc Hw) in Hev.
    apply (inj Some) in Hev. subst ev. cbn [pid fd data data_len]. unfold KernelMore.clamped.
    repeat split.
    destruct (_ >? 0); [|apply length_replicate].
    rewrite KernelFacts.bpf_probe_read_user_length; rewrite length_replicate;
      [reflexivity | lia].
  - unfold trace_write in Hev. rewrite Hw in Hev. discriminate.
Qed.

(** X6. Probe and decoder fit together: the record published for a watched
    caller, laid out and decoded, always gives an event (never a decode
    error, never the slice panic), with the caller's pid, the low 32 bits of
    the descriptor argument and the captured payload of [min (count, 240)]
    bytes. *)
Theorem probe_records_decode (target_pid : gmap Z Z) mem ctx w :
  0 ≤ arg_count ctx < 2 ^ 64 →
  target_pid !! u32 (Z.shiftr (pid_tgid ctx) 32) = Some w →
  ∃ ev, trace_write target_pid mem ctx = Some ev
        ∧ decode (encode ev)
          = Decoded {| ev_PID := u32 (Z.shiftr (pid_tgid ctx) 32);
                       ev_FD := u32 (arg_fd ctx);
                       Payload := payload ev |}
        ∧ len (payload ev) = Z.min (arg_count ctx) 240.
Proof.
  intros Hc Hw.
  destruct (trace_write target_pid mem ctx) as [ev|] eqn:Hev.
  - destruct (trace_write_well_formed target_pid mem ctx ev Hc Hev)
      as (Hpid & Hfd & Hlen & Hdata).
    exists ev. split; [reflexivity|]. split.
    + rewrite WireFacts.decode_encode.
      * rewrite WireFacts.slice_to_in_bounds by (unfold len; lia).
        rewrite Hpid, Hfd. reflexivity.
      * rewrite Hpid. apply KernelMore.u32_range.
      * rewrite Hfd. apply KernelMore.u32_range.
      * lia.
      * exact Hdata.
    + unfold payload, len. rewrite length_take. lia.
  - unfold trace_write in Hev. rewrite Hw in Hev. discriminate.
Qed.

Lemma probe_records_decode_witness :
  ∃ ev, trace_write KernelFacts.watched KernelFacts.flat_memory KernelFacts.big_write
        = Some ev
        ∧ decode (encode ev)
          = Decoded {| ev_PID := u32 (Z.shiftr (pid_tgid KernelFacts.big_write) 32);
                       ev_FD := u32 (arg_fd KernelFacts.big_write);
                       Payload := payload ev |}
        ∧ len (payload ev) = Z.min (arg_count KernelFacts.big_write) 240.
Proof.
  apply (probe_records_decode KernelFacts.watched KernelFacts.flat_memory
           KernelFacts.big_write 4242).
  - vm_compute. split; [discriminate | reflexivity].
  - vm_compute. reflexivity.
Defined.

(** X7. The bytes of the data array beyond [data_len] are zero, whatever the
    traced process passed and whether or not its buffer was readable. *)
Theorem trace_write_padding_is_zero (target_pid : gmap Z Z) mem ctx ev :
  0 ≤ arg_count ctx < 2 ^ 64 →
  trace_write target_pid mem ctx = Some ev →
  drop (Z.to_nat (data_len ev)) (data ev)
  = replicate (240 - Z.to_nat (data_len ev)) 0.
Proof.
  intros Hc Hev.
  destruct (target_pid !! u32 (Z.shiftr (pid_tgid ctx) 32)) as [w|] eqn:Hw.
  - rewrite (KernelMore.trace_write_watched target_pid mem ctx w Hc Hw) in Hev.
    apply (inj Some) in Hev. subst ev. cbn [data data_len]. unfold KernelMore.clamped.
    set (n := Z.min (arg_count ctx) 240).
    destruct (Z.gtb_spec n 0) as [Hpos|Hzero].
    + unfold bpf_probe_read_user.
      destruct (copy_from_user mem (arg_buf ctx) (Z.to_nat n)) as [bs|] eqn:Hcopy.
      * apply KernelFacts.copy_from_user_length in Hcopy.
        rewrite drop_app_length' by (symmetry; exact Hcopy).
        apply drop_replicate.
      * rewrite drop_app_length' by (rewrite length_replicate; reflexivity).
        apply drop_replicate.
    + replace (Z.to_nat n) with 0%nat by lia. reflexivity.
  - unfold trace_write in Hev. rewrite Hw in Hev. discriminate.
Qed.

Lemma trace_write_padding_is_zero_witness :
  drop (Z.to_nat (data_len CliFacts.tick)) (data CliFacts.tick)
  = replicate (240 - Z.to_nat (data_len CliFacts.tick)) 0.
Proof.
  apply (trace_write_padding_is_zero KernelFacts.watched
           (λ addr, (of_string "tick") !! Z.to_nat (addr - 4096))
           {| pid_tgid := 4242 * 2 ^ 32 + 4250; arg_fd := 1; arg_buf := 4096;
              arg_count := 4 |}).
  - vm_compute. split; [discriminate | reflexivity].
  - vm_compute. reflexivity.
Defined.

End WireMore.

(** * Further properties of formatting *)

Module FormatMore.
Import Format.

Lemma until_null_Forall (P : Z → Prop) data :
  Forall P data → Forall P (FormatFacts.until_null data).
Proof.
  induction 1 as [|b data Hb _ IH]; cbn [FormatFacts.until_null]; [constructor|].
  destruct (b =? 0); [constructor | constructor; assumption].
Qed.

Lemma escape_printable b :
  b ≠ 0 → (b = 0 ∨ counts_as_printable b = true) →
  Forall (λ c, unicode_IsPrint c = true) (FormatFacts.escape b).
Proof.
  intros Hb [H0|Hp]; [contradiction|]. unfold FormatFacts.escape.
  destruct (Z.eqb_spec b 10); [repeat constructor|].
  destruct (Z.eqb_spec b 13); [repeat constructor|].
  destruct (Z.eqb_spec b 9); [repeat constructor|].
  constructor; [|constructor]. unfold counts_as_printable in Hp.
  destruct (Z.eqb_spec b 10); [contradiction|].
  destruct (Z.eqb_spec b 13); [contradiction|].
  destruct (Z.eqb_spec b 9); [contradiction|]. exact Hp.
Qed.

(** X8. A text line holds printable characters only: whatever the payload,
    the line [formatData] gives on its text branch has no null byte and no
    raw newline, carriage return, tab or other control byte. *)
Theorem formatData_text_is_printable (data : list Z) :
  data ≠ [] → scan_printable data = true →
  Forall (λ c, unicode_IsPrint c = true) (formatData data)
  ∧ Forall (λ c, c ≠ 0 ∧ c ≠ 10 ∧ c ≠ 13 ∧ c ≠ 9) (formatData data).
Proof.
  intros Hne Hscan.
  assert (Hprint : Forall (λ c, unicode_IsPrint c = true) (formatData data)).
  { rewrite (FormatFacts.formatData_nonempty data Hne), Hscan.
    rewrite FormatFacts.format_text_escape.
    apply FormatFacts.scan_printable_Forall in Hscan.
    pose proof (until_null_Forall _ data Hscan) as Hshown.
    pose proof (FormatFacts.until_null_no_null data) as Hnz.
    induction (FormatFacts.until_null data) as [|b shown IH]; [constructor|].
    apply Forall_cons in Hshown as [Hb Hshown]. apply Forall_cons in Hnz as [Hb0 Hnz].
    cbn [map concat]. apply Forall_app. split; [|exact (IH Hshown Hnz)].
    apply escape_printable; assumption. }
  split; [exact Hprint|].
  eapply Forall_impl; [exact Hprint|]. intros c Hc.
  repeat split; intros ->; discriminate.
Qed.

Lemma formatData_text_is_printable_witness :
  Forall (λ c, unicode_IsPrint c = true) (formatData FormatFacts.tabbed_line)
  ∧ Forall (λ c, c ≠ 0 ∧ c ≠ 10 ∧ c ≠ 13 ∧ c ≠ 9) (formatData FormatFacts.tabbed_line).
Proof.
  apply (formatData_text_is_printable FormatFacts.tabbed_line);
    [discriminate | reflexivity].
Defined.

Lemma of_string_inj s t : of_string s = of_string t → s = t.
Proof.
  revert t. induction s as [|c s IH]; intros [|d t]; cbn [of_string];
    try discriminate; [reflexivity|].
  intros [= Hc Hs]. f_equal; [|exact (IH t Hs)].
  apply N2Z.inj in Hc.
  rewrite <- (ascii_N_embedding c), <- (ascii_N_embedding d), Hc. reflexivity.
Qed.

(** X9. The labels of [fdString] tell descriptors apart: two descriptors
    with the same label are the same descriptor. *)
Theorem fdString_inj (a b : Z) : fdString a = fdString b → a = b.
Proof.
  unfold fdString.
  destruct (Z.eqb_spec a 0), (Z.eqb_spec a 1), (Z.eqb_spec a 2),
    (Z.eqb_spec b 0), (Z.eqb_spec b 1), (Z.eqb_spec b 2);
    try lia; try discriminate.
  intros H. apply app_inv_head in H. unfold fmt_d in H.
  apply of_string_inj in H. exact (inj pretty _ _ H).
Qed.

Lemma fdString_inj_witness : 17 = 17.
Proof. apply (fdString_inj 17 17). reflexivity. Defined.

End FormatMore.

(** * Properties of the tail of an open file *)

Module ExistingFacts.
Import Format Existing.

Lemma bytes_Split_nonempty s sep : bytes_Split s sep ≠ [].
Proof.
  destruct s as [|b s]; cbn [bytes_Split]; [discriminate|].
  destruct (b =? sep); [discriminate|].
  destruct (bytes_Split s sep); discriminate.
Qed.

(** A separator at the end gives a last, empty piece. *)
Lemma bytes_Split_snoc s sep :
  bytes_Split (s ++ [sep]) sep = bytes_Split s sep ++ [[]].
Proof.
  induction s as [|b s IH]; cbn [app bytes_Split].
  - rewrite Z.eqb_refl. reflexivity.
  - destruct (b =? sep); [rewrite IH; reflexivity|].
    rewrite IH. pose proof (bytes_Split_nonempty s sep).
    destruct (bytes_Split s sep); [congruence | reflexivity].
Qed.

Lemma flat_map_at_most_one {A B} (f : A → list B) (l : list A) :
  (∀ a, (length (f a) ≤ 1)%nat) → (length (flat_map f l) ≤ length l)%nat.
Proof.
  intros Hf. induction l as [|a l IH]; cbn [flat_map length]; [lia|].
  rewrite length_app. specialize (Hf a). lia.
Qed.

Lemma bytes_Split_length (s : list Z) sep : 1 ≤ len (bytes_Split s sep) ≤ len s + 1.
Proof.
  unfold len. induction s as [|b s IH]; cbn [bytes_Split length]; [lia|].
  destruct (b =? sep); [cbn [length]; lia|].
  destruct (bytes_Split s sep); cbn [length] in *; lia.
Qed.

Lemma int64_in_range x : - 2 ^ 63 ≤ x < 2 ^ 63 → int64 x = x.
Proof. intros H. unfold int64. rewrite Z.mod_small by lia. lia. Qed.

Lemma int64_overflow x : 2 ^ 63 ≤ x < 2 ^ 63 + 2 ^ 64 → int64 x = x - 2 ^ 64.
Proof.
  intros H. unfold int64.
  replace (x + 2 ^ 63) with (x + 2 ^ 63 - 2 ^ 64 + 1 * 2 ^ 64) by lia.
  rewrite Z.mod_add by lia. rewrite Z.mod_small by lia. lia.
Qed.

(** The entries printed from line [start] on. *)
Definition entries_from (skipBinary : bool) (start : Z) (lines : list (list Z))
  : list (list Z) :=
  flat_map
    (λ line, if skipBinary && negb (isPrintable line) then []
             else [line_existing (formatData line)])
    (drop (Z.to_nat start) lines).

Lemma entries_from_length skipBinary start (lines : list (list Z)) :
  0 ≤ start → len (entries_from skipBinary start lines) ≤ Z.max 0 (len lines - start).
Proof.
  intros Hstart. unfold entries_from, len.
  etrans; [apply Nat2Z.inj_le, flat_map_at_most_one|].
  - intros line. destruct (skipBinary && negb (isPrintable line)); cbn [length]; lia.
  - rewrite length_drop. lia.
Qed.

Lemma existing_lines_start (fileContent : list Z) tailLines skipBinary :
  existing_lines fileContent tailLines skipBinary
  = let lines := bytes_Split fileContent 10 in
    let start := if len lines >? tailLines then int64 (len lines - tailLines) else 0 in
    if (start <? 0) && (start <? len lines) then IndexPanic
    else Printed (entries_from skipBinary start lines).
Proof. reflexivity. Qed.

(** X10. The tail of one file, for every value of [--tail].  With a
    non-negative [tailLines] at most [tailLines] entries are printed (one
    entry per line of the file, without those skipped as binary).  With a
    negative [tailLines] nothing is printed, unless it is so small that the
    [int] difference [len(lines) - tailLines] overflows: then the start index
    is negative and the loop panics with an index out of range. *)
Theorem existing_lines_by_tail (fileContent : list Z) (tailLines : Z) (skipBinary : bool) :
  - 2 ^ 63 ≤ tailLines < 2 ^ 63 → len fileContent < 2 ^ 63 - 1 →
  (0 ≤ tailLines →
     ∃ out, existing_lines fileContent tailLines skipBinary = Printed out
            ∧ len out ≤ tailLines)
  ∧ (len (bytes_Split fileContent 10) - 2 ^ 63 < tailLines < 0 →
       existing_lines fileContent tailLines skipBinary = Printed [])
  ∧ (tailLines ≤ len (bytes_Split fileContent 10) - 2 ^ 63 →
       existing_lines fileContent tailLines skipBinary = IndexPanic).
Proof.
  intros Hint Hcontent. rewrite existing_lines_start. cbv zeta.
  pose proof (bytes_Split_length fileContent 10) as Hn.
  set (lines := bytes_Split fileContent 10) in *.
  split; [|split].
  - intros Hpos. destruct (Z.gtb_spec (len lines) tailLines) as [Hgt|Hle].
    + rewrite int64_in_range by lia.
      destruct (Z.ltb_spec (len lines - tailLines) 0); [lia|]. cbn [andb].
      eexists. split; [reflexivity|].
      etrans; [apply entries_from_length; lia|]. lia.
    + cbn [Z.ltb Z.compare andb]. eexists. split; [reflexivity|].
      etrans; [apply entries_from_length; lia|]. lia.
  - intros Hneg. destruct (Z.gtb_spec (len lines) tailLines) as [Hgt|Hle]; [|lia].
    rewrite int64_in_range by lia.
    destruct (Z.ltb_spec (len lines - tailLines) 0); [lia|]. cbn [andb].
    f_equal. unfold entries_from. rewrite drop_ge; [reflexivity|]. unfold len in *. lia.
  - intros Hover. destruct (Z.gtb_spec (len lines) tailLines) as [Hgt|Hle]; [|lia].
    rewrite int64_overflow by lia.
    destruct (Z.ltb_spec (len lines - tailLines - 2 ^ 64) 0); [|lia].
    destruct (Z.ltb_spec (len lines - tailLines - 2 ^ 64) (len lines)); [|lia].
    reflexivity.
Qed.

Lemma existing_lines_by_tail_witness :
  (0 ≤ - 2 ^ 63 →
     ∃ out, existing_lines (of_string "ready") (- 2 ^ 63) false = Printed out
            ∧ len out ≤ - 2 ^ 63)
  ∧ (len (bytes_Split (of_string "ready") 10) - 2 ^ 63 < - 2 ^ 63 < 0 →
       existing_lines (of_string "ready") (- 2 ^ 63) false = Printed [])
  ∧ (- 2 ^ 63 ≤ len (bytes_Split (of_string "ready") 10) - 2 ^ 63 →
       existing_lines (of_string "ready") (- 2 ^ 63) false = IndexPanic).
Proof.
  apply (existing_lines_by_tail (of_string "ready") (- 2 ^ 63) false).
  - lia.
  - vm_compute. reflexivity.
Defined.

(** The three ranges of [--tail] on a file of two lines. *)
Example existing_lines_three_ranges :
  existing_lines (of_string "a" ++ [10] ++ of_string "b") 1 false
  = Printed [line_existing (of_string "b")]
  ∧ existing_lines (of_string "a" ++ [10] ++ of_string "b") (-1) false = Printed []
  ∧ existing_lines (of_string "a" ++ [10] ++ of_string "b") (- 2 ^ 63) false = IndexPanic.
Proof. repeat split; vm_compute; reflexivity. Qed.

(** X11. The content of a file that ends in a newline has an empty last
    line, and the tail shows it: with [tailLines] at least one, the loop does
    not panic and the last entry printed is the marker of an empty line,
    also when binary lines are skipped. *)
Theorem existing_lines_trailing_newline (fileContent : list Z) (tailLines : Z)
    (skipBinary : bool) :
  1 ≤ tailLines → len (fileContent ++ [10]) < 2 ^ 63 →
  ∃ out, existing_lines (fileContent ++ [10]) tailLines skipBinary = Printed out
         ∧ last out = Some (line_existing empty_marker).
Proof.
  intros Htail Hcontent. rewrite existing_lines_start. cbv zeta.
  pose proof (bytes_Split_length (fileContent ++ [10]) 10) as Hn.
  rewrite bytes_Split_snoc in *.
  set (lines := bytes_Split fileContent 10) in *.
  assert (Hlen : len (lines ++ [[]]) = len lines + 1).
  { unfold len. rewrite length_app. cbn [length]. lia. }
  set (start := if len (lines ++ [[]]) >? tailLines
                then int64 (len (lines ++ [[]]) - tailLines) else 0).
  assert (Hstart : 0 ≤ start ≤ len lines).
  { subst start. destruct (Z.gtb_spec (len (lines ++ [[]])) tailLines) as [Hgt|Hle].
    - rewrite int64_in_range by lia. lia.
    - unfold len. lia. }
  destruct (Z.ltb_spec start 0); [lia|]. cbn [andb].
  eexists. split; [reflexivity|]. unfold entries_from.
  rewrite drop_app_le by (unfold len in Hstart; lia).
  rewrite flat_map_app. cbn [flat_map].
  change (formatData []) with empty_marker.
  change (isPrintable []) with true.
  rewrite andb_false_r, app_nil_r. apply last_snoc.
Qed.

Lemma existing_lines_trailing_newline_witness :
  ∃ out, existing_lines (of_string "ready" ++ [10]) 10 true = Printed out
         ∧ last out = Some (line_existing empty_marker).
Proof.
  apply (existing_lines_trailing_newline (of_string "ready") 10 true).
  - lia.
  - vm_compute. reflexivity.
Defined.

End ExistingFacts.

(** * Properties of the descriptor flags *)

Module FlagsFacts.
Import Wire Format Flags.

Definition add_fd (fdFilter : gmap Z bool) (fd : Z) : gmap Z bool :=
  if fd >? 0 then <[u32 fd := true]> fdFilter else fdFilter.

Lemma fold_add_fd (scanned : list Z) : ∀ (acc : gmap Z bool) (k : Z) (v : bool),
  fold_left add_fd scanned acc !! k = Some v
  ↔ (v = true ∧ ∃ fd, fd ∈ scanned ∧ 0 < fd ∧ u32 fd = k)
    ∨ (acc !! k = Some v ∧ ¬ ∃ fd, fd ∈ scanned ∧ 0 < fd ∧ u32 fd = k).
Proof.
  induction scanned as [|fd scanned IH]; intros acc k v; cbn [fold_left].
  - split.
    + intros H. right. split; [exact H|]. intros [fd [Hin _]].
      apply elem_of_nil in Hin. exact Hin.
    + intros [[_ [fd [Hin _]]]|[H _]]; [apply elem_of_nil in Hin; contradiction | exact H].
  - rewrite IH. unfold add_fd. split.
    + intros [[-> [fd' (Hin & Hpos & Hk)]]|[Hacc Hno]].
      * left. split; [reflexivity|]. exists fd'. rewrite elem_of_cons. auto.
      * destruct (Z.gtb_spec fd 0) as [Hpos|Hneg].
        -- destruct (decide (u32 fd = k)) as [Hk|Hk].
           ++ rewrite <- Hk, lookup_insert_eq in Hacc. injection Hacc as <-.
              left. split; [reflexivity|]. exists fd. rewrite elem_of_cons. auto.
           ++ rewrite lookup_insert_ne in Hacc by exact Hk.
              right. split; [exact Hacc|]. intros [fd' (Hin & Hpos' & Hk')].
              apply elem_of_cons in Hin as [->|Hin]; [contradiction|].
              apply Hno. exists fd'. auto.
        -- right. split; [exact Hacc|]. intros [fd' (Hin & Hpos' & Hk')].
           apply elem_of_cons in Hin as [->|Hin]; [lia|].
           apply Hno. exists fd'. auto.
    + intros [[-> [fd' (Hin & Hpos & Hk)]]|[Hacc Hno]].
      * destruct (decide (Exists (λ fd0, 0 < fd0 ∧ u32 fd0 = k) scanned)) as [Hex|Hno];
          rewrite Exists_exists in *.
        -- left. split; [reflexivity | exact Hex].
        -- right. split; [|exact Hno].
           apply elem_of_cons in Hin as [->|Hin]; [|exfalso; apply Hno; exists fd'; auto].
           destruct (Z.gtb_spec fd 0); [|lia]. rewrite <- Hk. apply lookup_insert_eq.
      * right. split.
        -- destruct (Z.gtb_spec fd 0) as [Hpos|Hneg]; [|exact Hacc].
           rewrite lookup_insert_ne; [exact Hacc|].
           intros Hk. apply Hno. exists fd. rewrite elem_of_cons. auto.
        -- intros [fd' (Hin & Hpos & Hk)]. apply Hno. exists fd'.
           rewrite elem_of_cons. auto.
Qed.

Lemma filter_empty_without_positive (scanned : list Z) :
  (∀ fd, fd ∈ scanned → fd ≤ 0) → fold_left add_fd scanned ∅ = ∅.
Proof.
  intros Hnone. apply map_eq. intros k. rewrite lookup_empty.
  destruct (fold_left add_fd scanned ∅ !! k) as [v|] eqn:Hk; [|reflexivity].
  apply fold_add_fd in Hk as [[_ [fd (Hin & Hpos & _)]]|[Hempty _]].
  - specialize (Hnone fd Hin). lia.
  - rewrite lookup_empty in Hempty. discriminate.
Qed.

(** X12. With [--fds] given, the loop never shows all descriptors, whatever
    [--all], [--stdout] and [--stderr] say, and the filter selects exactly
    the descriptors that are the 32-bit value of a positive number of the
    list: zero, negative numbers and pieces that are no numbers select
    nothing. *)
Theorem build_filter_fds (f : fd_flags) (scanned : list Z) :
  targetFDs f = Some scanned →
  fst (build_filter f) = false
  ∧ (∀ k, default false (snd (build_filter f) !! k) = true
          ↔ ∃ fd, fd ∈ scanned ∧ 0 < fd ∧ u32 fd = k)
  ∧ ((∀ fd, fd ∈ scanned → fd ≤ 0) → snd (build_filter f) = ∅).
Proof.
  intros Hfds. unfold build_filter. rewrite Hfds. cbn [fst snd].
  fold add_fd. split; [reflexivity|]. split.
  - intros k. destruct (fold_left add_fd scanned ∅ !! k) as [v|] eqn:Hk; cbn [default].
    + apply fold_add_fd in Hk as [[-> Hex]|[Hempty _]].
      * split; [intros _; exact Hex | reflexivity].
      * rewrite lookup_empty in Hempty. discriminate.
    + split; [discriminate|]. intros Hex.
      assert (Hsome : fold_left add_fd scanned ∅ !! k = Some true).
      { apply fold_add_fd. left. split; [reflexivity | exact Hex]. }
      rewrite Hsome in Hk. discriminate.
  - apply filter_empty_without_positive.
Qed.

Lemma build_filter_fds_witness :
  fst (build_filter {| showStdout := true; showStderr := false; showAll := true;
                       targetFDs := Some [1; 0; 5; -3] |}) = false
  ∧ (∀ k, default false
            (snd (build_filter {| showStdout := true; showStderr := false;
                                  showAll := true;
                                  targetFDs := Some [1; 0; 5; -3] |}) !! k) = true
          ↔ ∃ fd, fd ∈ [1; 0; 5; -3] ∧ 0 < fd ∧ u32 fd = k)
  ∧ ((∀ fd, fd ∈ [1; 0; 5; -3] → fd ≤ 0) →
       snd (build_filter {| showStdout := true; showStderr := false; showAll := true;
                            targetFDs := Some [1; 0; 5; -3] |}) = ∅).
Proof.
  apply (build_filter_fds {| showStdout := true; showStderr := false; showAll := true;
                             targetFDs := Some [1; 0; 5; -3] |} [1; 0; 5; -3]).
  reflexivity.
Defined.

(** X13. Without [--fds]: all descriptors are shown exactly when [--all]
    holds and neither [--stdout] nor [--stderr] is given; the filter selects
    descriptor 1 exactly for [--stdout], descriptor 2 exactly for
    [--stderr], and no other descriptor. *)
Theorem build_filter_flags (f : fd_flags) :
  targetFDs f = None →
  fst (build_filter f) = showAll f && negb (showStdout f) && negb (showStderr f)
  ∧ (∀ k, default false (snd (build_filter f) !! k)
          = (showStdout f && (k =? 1)) || (showStderr f && (k =? 2))).
Proof.
  intros Hfds. unfold build_filter. rewrite Hfds.
  destruct (showStdout f), (showStderr f), (showAll f); cbn [fst snd andb negb orb];
    (split; [reflexivity|]); intros k;
    destruct (Z.eqb_spec k 1), (Z.eqb_spec k 2); try lia; subst; cbn [andb orb];
    repeat (rewrite lookup_insert_eq || rewrite lookup_insert_ne by lia
            || rewrite lookup_empty); reflexivity.
Qed.

Lemma build_filter_flags_witness :
  fst (build_filter {| showStdout := true; showStderr := true; showAll := true;
                       targetFDs := None |})
  = true && negb true && negb true
  ∧ (∀ k, default false
            (snd (build_filter {| showStdout := true; showStderr := true;
                                  showAll := true; targetFDs := None |}) !! k)
          = (true && (k =? 1)) || (true && (k =? 2))).
Proof.
  apply (build_filter_flags {| showStdout := true; showStderr := true; showAll := true;
                               targetFDs := None |}).
  reflexivity.
Defined.

End FlagsFacts.

(** * Further properties of the command line consumer *)

Module CliMore.
Import Wire Format Cli.

(** The state a turn or a run ends with. *)
Definition final (t : turn) : loop_state :=
  match t with Continue st | Return st | Panic st => st end.

(** Running over two stretches of input. *)
Lemma run_app cfg : ∀ a st b,
  run cfg st (a ++ b)
  = match run cfg st a with
    | Continue st' => run cfg st' b
    | stopped => stopped
    end.
Proof.
  induction a as [|i a IH]; intros st b; cbn [app run]; [reflexivity|].
  destruct (iteration cfg st i); [apply IH | reflexivity | reflexivity].
Qed.

(** What a turn does when its input is not an event that reaches the repeat
    check. *)
Lemma iteration_not_accepted cfg st record :
  CliFacts.accepted cfg record = None →
  iteration cfg st (ReadOk record) = Panic st
  ∨ iteration cfg st (ReadOk record) = Continue st
  ∨ (∃ line, iteration cfg st (ReadOk record) = Continue (print st line))
  ∨ (∃ line, iteration cfg st (ReadOk record) = Continue (eprint st line)).
Proof.
  unfold CliFacts.accepted, iteration. intros H.
  destruct (negb (LostSamples record =? 0)); [right; right; left; eexists; reflexivity|].
  destruct (binary_Read (RawSample record)) as [e|ev];
    [right; right; right; eexists; reflexivity|].
  destruct (negb (showAll cfg) && negb (default false (fdFilter cfg !! FD ev)));
    [right; left; reflexivity|].
  destruct (slice_to (Data ev) (DataLen ev)) as [d|]; [|left; reflexivity].
  destruct (skipBinary cfg && negb (isPrintable d)); [right; left; reflexivity|].
  discriminate.
Qed.

Lemma iteration_not_event cfg st i st' :
  iteration cfg st i = Continue st' →
  (∀ record, i = ReadOk record → CliFacts.accepted cfg record = None) →
  st' = st ∨ (∃ line, st' = print st line) ∨ (∃ line, st' = eprint st line).
Proof.
  intros Hturn Hnot. destruct i as [|record|e].
  - discriminate.
  - destruct (iteration_not_accepted cfg st record (Hnot record eq_refl))
      as [H|[H|[[line H]|[line H]]]]; rewrite H in Hturn.
    + discriminate.
    + injection Hturn as <-. left. reflexivity.
    + injection Hturn as <-. right. left. eexists. reflexivity.
    + injection Hturn as <-. right. right. eexists. reflexivity.
  - destruct e; cbn [iteration] in Hturn; try discriminate;
      injection Hturn as <-; right; right; eexists; reflexivity.
Qed.

(** X14. A turn for anything but an event that reaches the repeat check (a
    lost-samples record, a read error, a record that is too short, filtered
    out or skipped as binary) leaves the repeat detection as it was: the
    last displayed event, its line and the count are unchanged, so a record
    that was a repeat before the turn is still a repeat after it. *)
Theorem other_turns_keep_repeat_state cfg st i st' :
  iteration cfg st i = Continue st' →
  (∀ record, i = ReadOk record → CliFacts.accepted cfg record = None) →
  lastEvent st' = lastEvent st
  ∧ lastDataStr st' = lastDataStr st
  ∧ repeatCount st' = repeatCount st
  ∧ (∀ d, CliFacts.duplicate cfg st' d = CliFacts.duplicate cfg st d).
Proof.
  intros Hturn Hnot.
  destruct (iteration_not_event cfg st i st' Hturn Hnot) as [->|[[line ->]|[line ->]]];
    repeat split.
Qed.

Lemma other_turns_keep_repeat_state_witness :
  lastEvent (print CliFacts.after_tick (line_lost 5)) = lastEvent CliFacts.after_tick
  ∧ lastDataStr (print CliFacts.after_tick (line_lost 5)) = lastDataStr CliFacts.after_tick
  ∧ repeatCount (print CliFacts.after_tick (line_lost 5)) = repeatCount CliFacts.after_tick
  ∧ (∀ d, CliFacts.duplicate CliFacts.no_repeats (print CliFacts.after_tick (line_lost 5)) d
          = CliFacts.duplicate CliFacts.no_repeats CliFacts.after_tick d).
Proof.
  apply (other_turns_keep_repeat_state CliFacts.no_repeats CliFacts.after_tick
           (ReadOk {| RawSample := []; LostSamples := 5 |})).
  - reflexivity.
  - intros record [= <-]. reflexivity.
Defined.

(** The counter is positive only while there is a last displayed event. *)
Definition counted (st : loop_state) : Prop :=
  0 < repeatCount st → is_Some (lastEvent st).

Lemma binary_Read_Data_length raw event :
  binary_Read raw = inr event → length (Data event) = 240%nat.
Proof.
  unfold binary_Read, RECORD_SIZE, len.
  destruct (_ =? 0); [discriminate|].
  destruct (Z.ltb_spec (Z.of_nat (length raw)) 252); [discriminate|].
  intros [= <-]. cbn [Data]. rewrite length_take, length_drop. lia.
Qed.

Lemma iteration_counted cfg st i :
  counted st →
  match iteration cfg st i with
  | Continue st' | Return st' => counted st'
  | Panic _ =>
      ∃ record event, i = ReadOk record
                      ∧ binary_Read (RawSample record) = inr event
                      ∧ 240 < DataLen event
  end.
Proof.
  intros Hinv. destruct i as [|record|e]; cbn [iteration].
  - exact Hinv.
  - destruct (negb (LostSamples record =? 0)); [exact Hinv|].
    destruct (binary_Read (RawSample record)) as [e|event] eqn:Hread; [exact Hinv|].
    destruct (negb (showAll cfg) && negb (default false (fdFilter cfg !! FD event)));
      [exact Hinv|].
    unfold slice_to, len. rewrite (binary_Read_Data_length _ _ Hread).
    change (Z.of_nat 240) with 240.
    destruct (Z.leb_spec (DataLen event) 240) as [Hle|Hgt].
    + destruct (skipBinary cfg && negb (isPrintable _)); [exact Hinv|].
      destruct (suppressRepeats cfg && is_repeat st event _) eqn:Hrep.
      * unfold counted. cbn [repeatCount lastEvent]. intros _.
        apply andb_true_iff in Hrep as [_ Hrep]. unfold is_repeat in Hrep.
        destruct (lastEvent st); [eexists; reflexivity | discriminate].
      * destruct (Z.gtb_spec (repeatCount st) 0) as [Hpos|Hzero].
        -- destruct (Hinv Hpos) as [last Hlast]. rewrite Hlast.
           unfold counted. cbn [repeatCount]. lia.
        -- unfold counted. cbn [repeatCount]. lia.
    + exists record, event. split; [reflexivity|]. split; [exact Hread | exact Hgt].
  - destruct e; exact Hinv.
Qed.

(** X15. From its initial state the loop panics only in the slice
    [Data[:DataLen]]: if a run ends in a panic, one of its inputs is a
    record of full size whose length field exceeds 240.  The summary line
    never dereferences a nil [lastEvent]. *)
Theorem run_panics_only_in_slice cfg (inputs : list input) (st : loop_state) :
  run cfg initial inputs = Panic st →
  ∃ record event, ReadOk record ∈ inputs
                  ∧ binary_Read (RawSample record) = inr event
                  ∧ 240 < DataLen event.
Proof.
  assert (Hgen : ∀ inputs st0, counted st0 → run cfg st0 inputs = Panic st →
            ∃ record event, ReadOk record ∈ inputs
                            ∧ binary_Read (RawSample record) = inr event
                            ∧ 240 < DataLen event).
  { clear inputs. induction inputs as [|i inputs IH]; intros st0 Hinv; cbn [run].
    - discriminate.
    - pose proof (iteration_counted cfg st0 i Hinv) as Hstep.
      destruct (iteration cfg st0 i) as [st1|st1|st1].
      + intros Hrun. destruct (IH st1 Hstep Hrun) as (record & event & Hin & Hrest).
        exists record, event. split; [apply elem_of_cons; right; exact Hin | exact Hrest].
      + discriminate.
      + intros _. destruct Hstep as (record & event & -> & Hrest).
        exists record, event. split; [apply elem_of_cons; left; reflexivity | exact Hrest]. }
  apply Hgen. unfold counted, initial. cbn [repeatCount]. lia.
Qed.

Lemma run_panics_only_in_slice_witness :
  ∃ record event,
    ReadOk record
    ∈ [ReadOk (CliFacts.record_of CliFacts.tick);
       ReadOk (CliFacts.record_of
                 (SliceFacts.record_with_len 4242 1 (replicate 240 65) 241))]
    ∧ binary_Read (RawSample record) = inr event
    ∧ 240 < DataLen event.
Proof.
  apply (run_panics_only_in_slice CliFacts.no_repeats
           [ReadOk (CliFacts.record_of CliFacts.tick);
            ReadOk (CliFacts.record_of
                      (SliceFacts.record_with_len 4242 1 (replicate 240 65) 241))]
           (CliFacts.displayed initial [] (CliFacts.event_of CliFacts.tick)
              (of_string "tick"))).
  vm_compute. reflexivity.
Defined.

(** The line of a record that reaches the repeat check. *)
Definition line_of (cfg : config) (record : perf_Record) : list Z :=
  match CliFacts.accepted cfg record with
  | Some (event, data) => line_event (PID event) (FD event) (formatData data)
  | None => []
  end.

(** X16. Without [--no-repeats] nothing is collapsed: a run over records
    that reach the repeat check prints one line for each of them, in order,
    equal or not, and the counter stays at zero. *)
Theorem run_without_suppression cfg (records : list perf_Record) (st : loop_state) :
  suppressRepeats cfg = false → repeatCount st = 0 →
  Forall (λ r, is_Some (CliFacts.accepted cfg r)) records →
  ∃ st', run cfg st (map ReadOk records) = Continue st'
         ∧ stdout st' = stdout st ++ map (line_of cfg) records
         ∧ stderr st' = stderr st
         ∧ repeatCount st' = 0.
Proof.
  intros Hsup. revert st. induction records as [|r records IH]; intros st Hzero Hall.
  - exists st. cbn [map run]. rewrite app_nil_r. auto.
  - apply Forall_cons in Hall as [[[event data] Hacc] Hall]. cbn [map run].
    rewrite (CliFacts.iteration_accepted cfg st r event data Hacc), Hsup, Hzero.
    cbn [andb Z.gtb Z.compare].
    destruct (IH (CliFacts.displayed st [] event (formatData data)) eq_refl Hall)
      as (st' & Hrun & Hout & Herr & Hcount).
    exists st'. split; [exact Hrun|]. split; [|split; [exact Herr | exact Hcount]].
    rewrite Hout. cbn [CliFacts.displayed stdout app].
    unfold line_of at 2. rewrite Hacc. rewrite <- app_assoc. reflexivity.
Qed.

Definition plain : config :=
  {| showAll := true; fdFilter := ∅; skipBinary := false; suppressRepeats := false |}.

Lemma run_without_suppression_witness :
  ∃ st', run plain initial
           (map ReadOk [CliFacts.record_of CliFacts.tick; CliFacts.record_of CliFacts.tick])
         = Continue st'
         ∧ stdout st'
           = stdout initial
             ++ map (line_of plain)
                  [CliFacts.record_of CliFacts.tick; CliFacts.record_of CliFacts.tick]
         ∧ stderr st' = stderr initial
         ∧ repeatCount st' = 0.
Proof.
  apply (run_without_suppression plain
           [CliFacts.record_of CliFacts.tick; CliFacts.record_of CliFacts.tick] initial).
  - reflexivity.
  - reflexivity.
  - repeat constructor; vm_compute; eexists; reflexivity.
Defined.

Lemma iteration_grows cfg st i :
  ∃ out err, stdout (final (iteration cfg st i)) = stdout st ++ out
             ∧ stderr (final (iteration cfg st i)) = stderr st ++ err.
Proof.
  assert (Hsame : ∃ out err : list (list Z),
            stdout st = stdout st ++ out ∧ stderr st = stderr st ++ err).
  { exists [], []. rewrite !app_nil_r. auto. }
  unfold iteration.
  repeat case_match; cbn [final print eprint stdout stderr]; try exact Hsame.
  all: try (eexists _, []; split; [reflexivity | symmetry; apply app_nil_r]).
  all: try (eexists [], _; split; [symmetry; apply app_nil_r | reflexivity]).
Qed.

(** X17. The loop only ever adds to what it has written: however a run
    ends, the standard output and the error output it leaves start with
    what was there before. *)
Theorem run_output_append_only cfg (inputs : list input) (st : loop_state) :
  ∃ out err, stdout (final (run cfg st inputs)) = stdout st ++ out
             ∧ stderr (final (run cfg st inputs)) = stderr st ++ err.
Proof.
  revert st. induction inputs as [|i inputs IH]; intros st; cbn [run].
  - exists [], []. cbn [final]. rewrite !app_nil_r. auto.
  - destruct (iteration_grows cfg st i) as (out1 & err1 & Hout1 & Herr1).
    destruct (iteration cfg st i) as [st1|st1|st1]; cbn [final] in *.
    + destruct (IH st1) as (out2 & err2 & Hout2 & Herr2).
      exists (out1 ++ out2), (err1 ++ err2).
      rewrite Hout2, Herr2, Hout1, Herr1, <- !app_assoc. auto.
    + exists out1, err1. auto.
    + exists out1, err1. auto.
Qed.

Lemma iteration_Return cfg st i st' :
  iteration cfg st i = Return st' → (i = CtxDone ∨ i = ReadErr ErrClosed) ∧ st' = st.
Proof.
  unfold iteration. destruct i as [|record|e].
  - intros [= <-]. auto.
  - repeat case_match; discriminate.
  - destruct e; try discriminate. intros [= <-]. auto.
Qed.

(** The loop returns exactly at a done context or at a read error equal to
    the sentinel: either ends the run with the state reached so far, nothing
    after it is read, and a run that has returned has met one of the two. *)
Lemma run_returns_iff_stop cfg (inputs : list input) (st st' : loop_state) :
  run cfg st inputs = Return st'
  ↔ ∃ before stop after,
      inputs = before ++ stop :: after
      ∧ (stop = CtxDone ∨ stop = ReadErr ErrClosed)
      ∧ run cfg st before = Continue st'.
Proof.
  split.
  - revert st. induction inputs as [|i inputs IH]; intros st; cbn [run]; [discriminate|].
    destruct (iteration cfg st i) as [st1|st1|st1] eqn:Hturn.
    + intros Hrun. destruct (IH st1 Hrun) as (before & stop & after & -> & Hstop & Hbefore).
      exists (i :: before), stop, after. split; [reflexivity|]. split; [exact Hstop|].
      cbn [run]. rewrite Hturn. exact Hbefore.
    + intros [= <-]. destruct (iteration_Return cfg st i st1 Hturn) as [Hstop ->].
      exists [], i, inputs. auto.
    + discriminate.
  - intros (before & stop & after & -> & Hstop & Hbefore).
    rewrite run_app, Hbefore. cbn [run].
    destruct Hstop as [->| ->]; reflexivity.
Qed.

(** X18. A reader never returns the sentinel [perf.ErrClosed] itself (once
    closed it returns an error that wraps it), and then the loop returns
    exactly at a cancelled context: with the state reached so far, and
    without reading what follows.  Every read error, that of the closed
    reader included, is reported on the error output and the loop goes on. *)
Theorem run_returns_iff_cancelled cfg (inputs : list input) (st st' : loop_state) :
  Forall (λ i, i ≠ ReadErr ErrClosed) inputs →
  (run cfg st inputs = Return st'
   ↔ ∃ before after, inputs = before ++ CtxDone :: after
                     ∧ run cfg st before = Continue st')
  ∧ (∀ e rest, ReadErr e ∈ inputs →
       run cfg st (ReadErr e :: rest) = run cfg (eprint st (line_read_error e)) rest).
Proof.
  intros Hno. split.
  - rewrite run_returns_iff_stop. split.
    + intros (before & stop & after & Heq & Hstop & Hrun).
      destruct Hstop as [->| ->].
      * exists before, after. auto.
      * exfalso. rewrite Forall_forall in Hno.
        apply (Hno (ReadErr ErrClosed)); [|reflexivity].
        rewrite Heq. apply elem_of_app. right. apply elem_of_cons. left. reflexivity.
    + intros (before & after & Heq & Hrun). exists before, CtxDone, after. auto.
  - intros e rest Hin. rewrite Forall_forall in Hno. specialize (Hno _ Hin).
    cbn [run iteration]. destruct e; try reflexivity. congruence.
Qed.

(** The error of a closed perf reader, then the cancelled context. *)
Definition closing_down : list input :=
  [ReadErr (ErrOther "perf ringbuffer: file already closed"); CtxDone].

Lemma run_returns_iff_cancelled_witness :
  (run CliFacts.no_repeats initial closing_down
   = Return (eprint initial
               (line_read_error (ErrOther "perf ringbuffer: file already closed")))
   ↔ ∃ before after,
       closing_down = before ++ CtxDone :: after
       ∧ run CliFacts.no_repeats initial before
         = Continue (eprint initial
                       (line_read_error (ErrOther "perf ringbuffer: file already closed"))))
  ∧ (∀ e rest, ReadErr e ∈ closing_down →
       run CliFacts.no_repeats initial (ReadErr e :: rest)
       = run CliFacts.no_repeats (eprint initial (line_read_error e)) rest).
Proof.
  apply (run_returns_iff_cancelled CliFacts.no_repeats closing_down initial
           (eprint initial
              (line_read_error (ErrOther "perf ringbuffer: file already closed")))).
  repeat constructor; discriminate.
Defined.

(** X19. When [--fds] names no positive descriptor (as in [--fds=0]), no
    event is ever displayed: every record read leaves the standard output
    and the repeat detection untouched, apart from the notice of lost
    samples. *)
Theorem no_positive_fd_shows_nothing (f : Flags.fd_flags) (scanned : list Z)
    (skip suppress : bool) (st : loop_state) (record : perf_Record) :
  Flags.targetFDs f = Some scanned →
  (∀ fd, fd ∈ scanned → fd ≤ 0) →
  LostSamples record = 0 →
  ∃ st', iteration (Flags.config_of f skip suppress) st (ReadOk record) = Continue st'
         ∧ stdout st' = stdout st
         ∧ lastEvent st' = lastEvent st
         ∧ repeatCount st' = repeatCount st.
Proof.
  intros Hfds Hnone Hlost. unfold iteration. rewrite Hlost. cbn [Z.eqb negb].
  destruct (binary_Read (RawSample record)) as [e|event].
  - eexists. split; [reflexivity|]. repeat split.
  - unfold Flags.config_of, Flags.build_filter. rewrite Hfds. cbn [showAll fdFilter fst snd].
    fold FlagsFacts.add_fd.
    rewrite (FlagsFacts.filter_empty_without_positive scanned Hnone), lookup_empty.
    cbn [default negb andb]. exists st. repeat split.
Qed.

Lemma no_positive_fd_shows_nothing_witness :
  ∃ st', iteration
           (Flags.config_of
              {| Flags.showStdout := false; Flags.showStderr := false;
                 Flags.showAll := true; Flags.targetFDs := Some [0] |} false false)
           initial (ReadOk (CliFacts.record_of CliFacts.tick)) = Continue st'
         ∧ stdout st' = stdout initial
         ∧ lastEvent st' = lastEvent initial
         ∧ repeatCount st' = repeatCount initial.
Proof.
  apply (no_positive_fd_shows_nothing
           {| Flags.showStdout := false; Flags.showStderr := false;
              Flags.showAll := true; Flags.targetFDs := Some [0] |} [0] false false
           initial (CliFacts.record_of CliFacts.tick)).
  - reflexivity.
  - intros fd Hin. apply elem_of_cons in Hin as [->|Hin]; [lia|].
    apply elem_of_nil in Hin. contradiction.
  - reflexivity.
Defined.

End CliMore.

(** * Further properties of the interactive consumer *)

Module TuiMore.
Import Wire Format Tui.

(** What [Read] returns once the ring buffer reader has been closed: the
    library does not return the sentinel [ringbuf.ErrClosed] itself but an
    error that wraps it, a value that [==] does not identify with the
    sentinel. *)
Definition reader_closed : error := ErrOther "ringbuffer: file already closed".

Section WithLibraries.
Context `{L : Libraries}.

(** An event that passes the three filters of [pollNextEvent]. *)
Definition passes (m : tuiModel) (e : Event) : bool :=
  fd_stage m e && binary_stage m e && regex_stage m (Payload e).

(** A read result that [pollNextEvent] steps over: a sample that decodes to
    an event which does not pass. *)
Definition stepped_over (m : tuiModel) (r : read_result) : bool :=
  match r with
  | ReadSample raw =>
      match decode raw with
      | Decoded e => negb (passes m e)
      | _ => false
      end
  | ReadError _ => false
  end.

Lemma pollNextEvent_sample (m : tuiModel) raw rest :
  pollNextEvent m (ReadSample raw :: rest)
  = match decode raw with
    | DecodeError e => Polled (ErrorMsg e) rest
    | DecodePanic => PollPanic
    | Decoded e => if passes m e then Polled (EventMsg e) rest else pollNextEvent m rest
    end.
Proof.
  cbn [pollNextEvent]. destruct (decode raw) as [e| |]; try reflexivity.
  unfold passes.
  destruct (fd_stage m e), (binary_stage m e), (regex_stage m (Payload e)); reflexivity.
Qed.

Lemma pollNextEvent_event (m : tuiModel) : ∀ rd e rest,
  pollNextEvent m rd = Polled (EventMsg e) rest →
  ∃ before raw,
    rd = before ++ ReadSample raw :: rest
    ∧ Forall (λ r, stepped_over m r = true) before
    ∧ decode raw = Decoded e
    ∧ passes m e = true.
Proof.
  induction rd as [|r rd IH]; intros e rest; [discriminate|].
  destruct r as [raw|err].
  - rewrite pollNextEvent_sample.
    destruct (decode raw) as [ev| |] eqn:Hdec; try discriminate.
    destruct (passes m ev) eqn:Hpass.
    + intros [= <- <-]. exists [], raw. repeat split; [constructor | exact Hdec | exact Hpass].
    + intros Hrec. destruct (IH e rest Hrec) as (before & raw' & -> & Hskip & Hdec' & Hpass').
      exists (ReadSample raw :: before), raw'. split; [reflexivity|].
      split; [|split; assumption].
      constructor; [|exact Hskip]. cbn [stepped_over]. rewrite Hdec, Hpass. reflexivity.
  - cbn [pollNextEvent]. destruct err; discriminate.
Qed.

Lemma pollNextEvent_steps_over (m : tuiModel) (before rd : list read_result) :
  Forall (λ r, stepped_over m r = true) before →
  pollNextEvent m (before ++ rd) = pollNextEvent m rd.
Proof.
  induction 1 as [|r before Hr _ IH]; [reflexivity|]. cbn [app].
  destruct r as [raw|err]; cbn [stepped_over] in Hr; [|discriminate].
  rewrite pollNextEvent_sample.
  destruct (decode raw) as [e| |]; try discriminate.
  apply negb_true_iff in Hr. rewrite Hr. exact IH.
Qed.

(** C9. From every running state, [Normal] or [Filtering], the closing of
    the channel and every other read error end the session.  The closed
    reader hands [pollNextEvent] an error that wraps the sentinel and is not
    equal to it, so, like any other read error, it passes the guard on the
    sentinels, is returned as the message of the poll, and [Update] stores
    it and quits.  Samples that the filters step over before the error
    change nothing. *)
Theorem closure_or_read_error_terminates (s : session)
    (before : list read_result) (e : error) (rest : list read_result) :
  quit s = false →
  reader s = before ++ ReadError e :: rest →
  Forall (λ r, stepped_over (model s) r = true) before →
  e = reader_closed ∨ (e ≠ ErrClosed ∧ e ≠ EOF) →
  ∃ s', poll s = Some s'
        ∧ state_of s' = Terminated
        ∧ err (model s') = Some e
        ∧ reader s' = rest.
Proof.
  intros Hq Hrd Hskip He.
  assert (Hmsg : pollNextEvent (model s) (reader s) = Polled (ErrorMsg e) rest).
  { rewrite Hrd, (pollNextEvent_steps_over _ before _ Hskip). cbn [pollNextEvent].
    destruct He as [->|[Hc Heof]]; [reflexivity|].
    destruct e; try reflexivity; congruence. }
  unfold poll. rewrite Hmsg. eexists. split; [reflexivity|].
  rewrite TuiFacts.deliver_error by exact Hq. repeat split.
Qed.

(** X20. [pollNextEvent] returns an event exactly when it is the first
    event in arrival order that passes the descriptor, binary and pattern
    filters: everything before it is a sample whose event does not pass, and
    the reader is left right after it.  No event that fails a filter is
    ever returned, and no passing event is stepped over. *)
Theorem pollNextEvent_first_passing (m : tuiModel) (rd : list read_result)
    (e : Event) (rest : list read_result) :
  pollNextEvent m rd = Polled (EventMsg e) rest
  ↔ ∃ before raw,
      rd = before ++ ReadSample raw :: rest
      ∧ Forall (λ r, stepped_over m r = true) before
      ∧ decode raw = Decoded e
      ∧ fd_stage m e = true
      ∧ binary_stage m e = true
      ∧ regex_stage m (Payload e) = true.
Proof.
  split.
  - intros Hpoll.
    destruct (pollNextEvent_event m rd e rest Hpoll) as (before & raw & -> & Hskip & Hdec & Hp).
    unfold passes in Hp. apply andb_true_iff in Hp as [Hp Hre].
    apply andb_true_iff in Hp as [Hfd Hbin].
    exists before, raw. auto 10.
  - intros (before & raw & -> & Hskip & Hdec & Hfd & Hbin & Hre).
    induction Hskip as [|r before Hr _ IH]; cbn [app].
    + rewrite pollNextEvent_sample, Hdec. unfold passes. rewrite Hfd, Hbin, Hre. reflexivity.
    + destruct r as [raw0|err]; cbn [stepped_over] in Hr; [|discriminate].
      rewrite pollNextEvent_sample.
      destruct (decode raw0) as [e0| |]; try discriminate.
      apply negb_true_iff in Hr. rewrite Hr. exact IH.
Qed.

(** *** The state machine *)

(** The state after a key, as [Update] decides it. *)
Definition next_state (s : State) (key : string) : State :=
  match s with
  | Normal =>
      if matches key keys_Quit then Terminated
      else if matches key keys_Filter then Filtering
      else Normal
  | Filtering =>
      if matches key keys_Quit || matches key keys_Enter then Normal else Filtering
  | Terminated => Terminated
  end.

(** X21. The transitions of the consumer.  In [Normal], "q" and "ctrl+c"
    terminate, "/" enters [Filtering], every other key stays in [Normal].  In
    [Filtering], "q", "ctrl+c" and "enter" return to [Normal] and every other
    key (also "esc") stays in [Filtering]: no key terminates from there.  An
    error message terminates from either state; events, window sizes and nil
    messages change no state. *)
Theorem consumer_transitions (s : session) (msg : Msg) :
  quit s = false →
  state_of (deliver s msg)
  = match msg with
    | KeyMsg key => next_state (state_of s) key
    | ErrorMsg _ => Terminated
    | _ => state_of s
    end.
Proof.
  intros Hq. unfold deliver. rewrite Hq.
  assert (Hs : state_of s = if filtering (model s) then Filtering else Normal).
  { unfold state_of. rewrite Hq. reflexivity. }
  rewrite Hs. clear Hs.
  destruct msg as [w h|e|e|key|]; unfold Update, state_of, next_state.
  - destruct (view_heights _ _), (negb (ready _)); cbn; reflexivity.
  - cbn. reflexivity.
  - cbn. reflexivity.
  - destruct (filtering (model s)) eqn:Hf.
    + destruct (matches key keys_Quit); [cbn; reflexivity|].
      destruct (matches key keys_Enter); cbn; [reflexivity|]. rewrite Hf. reflexivity.
    + destruct (matches key keys_Quit); [reflexivity|].
      destruct (matches key keys_Filter); [reflexivity|].
      destruct (matches key keys_Clear); [cbn; rewrite Hf; reflexivity|].
      destruct (matches key keys_ToggleAll); [cbn; rewrite Hf; reflexivity|].
      destruct (matches key keys_ToggleBinary); [cbn; rewrite Hf; reflexivity|].
      destruct (matches key keys_ToggleHelp); cbn; rewrite Hf; reflexivity.
  - cbn. rewrite ?Hq. reflexivity.
Qed.

(** The model after a sequence of messages. *)
Definition updates (m : tuiModel) (msgs : list Msg) : tuiModel :=
  fold_left (λ m msg, fst (Update m msg)) msgs m.

Lemma Update_fdFilter (m : tuiModel) msg : fdFilter (fst (Update m msg)) = fdFilter m.
Proof.
  destruct msg as [w h|e|e|key|]; cbn [Update]; try reflexivity.
  - destruct (view_heights _ _), (negb (ready _)); reflexivity.
  - repeat case_match; reflexivity.
Qed.

Lemma updates_fdFilter msgs : ∀ m : tuiModel, fdFilter (updates m msgs) = fdFilter m.
Proof.
  induction msgs as [|msg msgs IH]; intros m; [reflexivity|].
  cbn [updates fold_left]. fold (updates (fst (Update m msg)) msgs).
  rewrite IH. apply Update_fdFilter.
Qed.

(** X22. No message ever puts a descriptor into the filter of the model: it
    is empty at the start and stays empty.  So once the operator has turned
    "all descriptors" off, [pollNextEvent] returns no event at all, whatever
    arrives. *)
Theorem fdFilter_stays_empty (msgs : list Msg) :
  fdFilter (updates newTUIModel msgs) = ∅
  ∧ (showAll (updates newTUIModel msgs) = false →
     ∀ rd e rest, pollNextEvent (updates newTUIModel msgs) rd ≠ Polled (EventMsg e) rest).
Proof.
  assert (Hempty : fdFilter (updates newTUIModel msgs) = ∅) by apply updates_fdFilter.
  split; [exact Hempty|].
  intros Hoff rd e rest Hpoll.
  destruct (pollNextEvent_event _ rd e rest Hpoll) as (_ & _ & _ & _ & _ & Hp).
  unfold passes, fd_stage in Hp. rewrite Hoff, Hempty, lookup_empty in Hp.
  discriminate.
Qed.

Lemma Update_events (m : tuiModel) msg :
  events (fst (Update m msg))
  = events m ++ match msg with EventMsg e => [event_line e] | _ => [] end.
Proof.
  destruct msg as [w h|e|e|key|]; cbn [Update]; try (rewrite app_nil_r).
  - destruct (view_heights _ _), (negb (ready _)); reflexivity.
  - reflexivity.
  - reflexivity.
  - repeat case_match; reflexivity.
  - reflexivity.
Qed.

(** X23. The scroll-back is the list of the lines of the events received,
    in the order received: an event message appends its line, and no key,
    window size, error or nil message adds, removes or changes a line. *)
Theorem events_of_updates (msgs : list Msg) (m : tuiModel) :
  events (updates m msgs)
  = events m
    ++ flat_map (λ msg, match msg with EventMsg e => [event_line e] | _ => [] end) msgs.
Proof.
  revert m. induction msgs as [|msg msgs IH]; intros m.
  - cbn. rewrite app_nil_r. reflexivity.
  - cbn [updates fold_left flat_map]. fold (updates (fst (Update m msg)) msgs).
    rewrite IH, Update_events, <- app_assoc. reflexivity.
Qed.

(** X24. Confirming a draft that compiles makes it the active pattern:
    from then on [pollNextEvent] returns only events whose raw payload the
    pattern matches. *)
Theorem valid_pattern_filters (m : tuiModel) (re : Regexp) :
  filtering m = true → regexp_Compile (input_value m) = Some re →
  ∃ m', Update m (KeyMsg "enter") = (m', CmdBatch)
        ∧ grepRegex m' = Some re
        ∧ filtering m' = false
        ∧ (∀ rd e rest, pollNextEvent m' rd = Polled (EventMsg e) rest →
             regexp_Match re (Payload e) = true).
Proof.
  intros Hf Hc. eexists. split.
  - unfold Update. rewrite Hf. cbn [matches keys_Quit keys_Enter existsb String.eqb
      Ascii.eqb Bool.eqb orb]. reflexivity.
  - rewrite Hc. split; [reflexivity|]. split; [reflexivity|].
    intros rd e rest Hpoll.
    destruct (pollNextEvent_event _ rd e rest Hpoll) as (_ & _ & _ & _ & _ & Hp).
    unfold passes in Hp. apply andb_true_iff in Hp as [_ Hre]. exact Hre.
Qed.

(** X25. While the filter is being typed, keys only edit the draft: no key
    toggles the descriptor or binary flag, adds a line or returns the quit
    command; the active pattern changes on "enter" alone, and leaving with
    "q" or "ctrl+c" keeps both the active pattern and the draft. *)
Theorem filter_entry_is_modal (m : tuiModel) (key : string) :
  filtering m = true →
  showAll (fst (Update m (KeyMsg key))) = showAll m
  ∧ skipBinary (fst (Update m (KeyMsg key))) = skipBinary m
  ∧ events (fst (Update m (KeyMsg key))) = events m
  ∧ snd (Update m (KeyMsg key)) = CmdBatch
  ∧ (matches key keys_Quit = true ∨ matches key keys_Enter = false →
       grepRegex (fst (Update m (KeyMsg key))) = grepRegex m)
  ∧ (matches key keys_Quit = true →
       input_value (fst (Update m (KeyMsg key))) = input_value m).
Proof.
  intros Hf. unfold Update. rewrite Hf.
  destruct (matches key keys_Quit); [repeat split|].
  destruct (matches key keys_Enter); repeat split; try discriminate.
  intros [H|H]; discriminate.
Qed.

End WithLibraries.

#[local] Existing Instance literal_libraries.

(** The pattern "err" of the stand-in library. *)
Definition err_pattern : @Regexp literal_libraries := of_string "err".

Lemma valid_pattern_filters_witness :
  ∃ m', Update (set_input (set_filtering newTUIModel true) (of_string "err") true)
               (KeyMsg "enter") = (m', CmdBatch)
        ∧ grepRegex m' = Some err_pattern
        ∧ filtering m' = false
        ∧ (∀ rd e rest, pollNextEvent m' rd = Polled (EventMsg e) rest →
             regexp_Match err_pattern (Payload e) = true).
Proof.
  apply (valid_pattern_filters
           (set_input (set_filtering newTUIModel true) (of_string "err") true)
           err_pattern); reflexivity.
Defined.

(** A record with a binary payload, which the initial model steps over. *)
Definition binary_record : Kernel.write_event_t :=
  {| Kernel.pid := 4242; Kernel.fd := 3;
     Kernel.data := [1; 2; 3; 4] ++ replicate 236 0; Kernel.data_len := 4 |}.

Lemma closure_or_read_error_terminates_witness :
  ∃ s', poll (TuiFacts.running TuiFacts.typing_bad_pattern
                [ReadSample (encode binary_record); ReadError reader_closed])
        = Some s'
        ∧ state_of s' = Terminated
        ∧ err (model s') = Some reader_closed
        ∧ reader s' = [].
Proof.
  apply (closure_or_read_error_terminates
           (TuiFacts.running TuiFacts.typing_bad_pattern
              [ReadSample (encode binary_record); ReadError reader_closed])
           [ReadSample (encode binary_record)] reader_closed []).
  - reflexivity.
  - reflexivity.
  - repeat constructor.
  - left. reflexivity.
Defined.

Lemma consumer_transitions_witness :
  state_of (deliver (TuiFacts.running TuiFacts.typing_bad_pattern []) (KeyMsg "ctrl+c"))
  = next_state (state_of (TuiFacts.running TuiFacts.typing_bad_pattern [])) "ctrl+c".
Proof.
  apply (consumer_transitions (TuiFacts.running TuiFacts.typing_bad_pattern [])
           (KeyMsg "ctrl+c")).
  reflexivity.
Defined.

Lemma filter_entry_is_modal_witness :
  showAll (fst (Update TuiFacts.typing_bad_pattern (KeyMsg "a")))
  = showAll TuiFacts.typing_bad_pattern
  ∧ skipBinary (fst (Update TuiFacts.typing_bad_pattern (KeyMsg "a")))
    = skipBinary TuiFacts.typing_bad_pattern
  ∧ events (fst (Update TuiFacts.typing_bad_pattern (KeyMsg "a")))
    = events TuiFacts.typing_bad_pattern
  ∧ snd (Update TuiFacts.typing_bad_pattern (KeyMsg "a")) = CmdBatch
  ∧ (matches "a" keys_Quit = true ∨ matches "a" keys_Enter = false →
       grepRegex (fst (Update TuiFacts.typing_bad_pattern (KeyMsg "a")))
       = grepRegex TuiFacts.typing_bad_pattern)
  ∧ (matches "a" keys_Quit = true →
       input_value (fst (Update TuiFacts.typing_bad_pattern (KeyMsg "a")))
       = input_value TuiFacts.typing_bad_pattern).
Proof.
  apply (filter_entry_is_modal TuiFacts.typing_bad_pattern "a"). reflexivity.
Defined.

End TuiMore.

(** * From the write to the screen *)

Module PipelineFacts.
Import Kernel Wire Format Tui.

(** The record published for a write whose buffer is readable. *)
Lemma trace_write_readable (target_pid : gmap Z Z) mem ctx w (buf : list Z) :
  0 ≤ arg_count ctx < 2 ^ 64 →
  target_pid !! u32 (Z.shiftr (pid_tgid ctx) 32) = Some w →
  len buf = Z.min (arg_count ctx) 240 →
  (∀ i, (i < length buf)%nat → mem (arg_buf ctx + Z.of_nat i) = buf !! i) →
  trace_write target_pid mem ctx
  = Some {| pid := u32 (Z.shiftr (pid_tgid ctx) 32);
            fd := u32 (arg_fd ctx);
            data := buf ++ replicate (240 - length buf) 0;
            data_len := len buf |}.
Proof.
  intros Hc Hw Hlen Hmem.
  rewrite (KernelMore.trace_write_watched target_pid mem ctx w Hc Hw).
  unfold KernelMore.clamped. rewrite <- Hlen. f_equal. f_equal.
  unfold len in *.
  destruct (Z.gtb_spec (Z.of_nat (length buf)) 0) as [Hpos|Hzero].
  - unfold bpf_probe_read_user. rewrite Nat2Z.id.
    rewrite (KernelMore.copy_from_user_reads mem buf (arg_buf ctx) Hmem).
    rewrite drop_replicate. reflexivity.
  - destruct buf; [reflexivity | cbn [length] in Hzero; lia].
Qed.

(** X26. From the write to the screen.  When a watched process writes a
    readable buffer, and the interactive consumer shows all descriptors, has
    no active pattern and does not skip the payload as binary, one poll of
    the record appends one line to the scroll-back: the pid, the label of
    the descriptor and the formatted first [min (count, 240)] bytes of the
    buffer.  The consumer keeps running and the reader is left after the
    record. *)
Theorem capture_to_display `{L : Libraries} (target_pid : gmap Z Z) mem ctx w
    (buf : list Z) (m : tuiModel) (rest : list read_result) :
  0 ≤ arg_count ctx < 2 ^ 64 →
  target_pid !! u32 (Z.shiftr (pid_tgid ctx) 32) = Some w →
  len buf = Z.min (arg_count ctx) 240 →
  (∀ i, (i < length buf)%nat → mem (arg_buf ctx + Z.of_nat i) = buf !! i) →
  showAll m = true → grepRegex m = None →
  skipBinary m = false ∨ isPrintable buf = true →
  ∃ ev s',
    trace_write target_pid mem ctx = Some ev
    ∧ poll {| model := m; quit := false; reader := ReadSample (encode ev) :: rest |}
      = Some s'
    ∧ events (model s')
      = events m
        ++ [of_string "[PID " ++ fmt_d (u32 (Z.shiftr (pid_tgid ctx) 32))
            ++ of_string ", " ++ fdString (u32 (arg_fd ctx))
            ++ of_string "] " ++ formatData buf]
    ∧ reader s' = rest
    ∧ quit s' = false.
Proof.
  intros Hc Hw Hlen Hmem Hall Hre Hbin.
  eexists. eexists. split.
  { apply (trace_write_readable target_pid mem ctx w buf); assumption. }
  set (ev := {| pid := u32 (Z.shiftr (pid_tgid ctx) 32); fd := u32 (arg_fd ctx);
                data := buf ++ replicate (240 - length buf) 0; data_len := len buf |}).
  assert (Hdec : decode (encode ev)
                 = Decoded {| ev_PID := u32 (Z.shiftr (pid_tgid ctx) 32);
                              ev_FD := u32 (arg_fd ctx); Payload := buf |}).
  { rewrite WireFacts.decode_encode; subst ev; cbn [pid fd data data_len];
      try apply KernelMore.u32_range.
    - rewrite WireFacts.slice_to_in_bounds.
      + unfold len. rewrite Nat2Z.id, take_app_length. reflexivity.
      + unfold len. rewrite length_app, length_replicate. lia.
    - lia.
    - rewrite length_app, length_replicate. unfold len in Hlen. lia. }
  unfold poll. cbn [model reader].
  rewrite TuiMore.pollNextEvent_sample, Hdec.
  assert (Hpass : TuiMore.passes m {| ev_PID := u32 (Z.shiftr (pid_tgid ctx) 32);
                                      ev_FD := u32 (arg_fd ctx); Payload := buf |} = true).
  { unfold TuiMore.passes, fd_stage, binary_stage, regex_stage. cbn [Payload ev_FD].
    rewrite Hall, Hre. destruct Hbin as [-> | ->]; [reflexivity|].
    destruct (skipBinary m); reflexivity. }
  rewrite Hpass. split; [reflexivity|].
  unfold deliver. cbn [quit model reader Update].
  split; [|split; reflexivity].
  cbn [events set_viewport set_events]. reflexivity.
Qed.

#[local] Existing Instance literal_libraries.

Lemma capture_to_display_witness :
  ∃ ev s',
    trace_write KernelFacts.watched KernelMore.greeting_memory KernelMore.greeting_write
    = Some ev
    ∧ poll {| model := newTUIModel; quit := false;
              reader := ReadSample (encode ev) :: [] |} = Some s'
    ∧ events (model s')
      = events newTUIModel
        ++ [of_string "[PID "
            ++ fmt_d (u32 (Z.shiftr (pid_tgid KernelMore.greeting_write) 32))
            ++ of_string ", " ++ fdString (u32 (arg_fd KernelMore.greeting_write))
            ++ of_string "] " ++ formatData KernelMore.greeting]
    ∧ reader s' = []
    ∧ quit s' = false.
Proof.
  apply (capture_to_display KernelFacts.watched KernelMore.greeting_memory
           KernelMore.greeting_write 4242 KernelMore.greeting newTUIModel []).
  - vm_compute. split; [discriminate | reflexivity].
  - vm_compute. reflexivity.
  - vm_compute. reflexivity.
  - intros i Hi. change (length KernelMore.greeting) with 21%nat in Hi.
    do 21 (destruct i as [|i]; [vm_compute; reflexivity|]). lia.
  - reflexivity.
  - reflexivity.
  - right. vm_compute. reflexivity.
Defined.

(** The line of that run, written out. *)
Example greeting_line :
  of_string "[PID " ++ fmt_d (u32 (Z.shiftr (pid_tgid KernelMore.greeting_write) 32))
    ++ of_string ", " ++ fdString (u32 (arg_fd KernelMore.greeting_write))
    ++ of_string "] " ++ formatData KernelMore.greeting
  = of_string "[PID 4242, stdout] Starting test process".
Proof. vm_compute. reflexivity. Qed.

End PipelineFacts.
